(** * Kerberos SSPI negotiation engine (src/win32/kerberos_sspi.cc)

    A shallow embedding of the client and server context state machines,
    their release operations, the wrap/unwrap operations and the token
    codec, together with the properties of the design document that
    were checked against them.

    Conventions of the embedding:
    - a [char*] text is a [string] (the characters before the terminating
      NUL); a possibly-NULL [char*] argument is an [option string];
    - a raw buffer is a [list byte]; an owned heap pointer is an
      [option] of a block (address and contents), [None] being NULL;
    - [ULONG]/[DWORD] arithmetic is written with its wrap-around modulo
      2^32, [SIZE_T] arithmetic modulo 2^64;
    - the security provider, the allocator and the other platform calls
      are an environment record of oracles; every call the engine makes
      to them is appended to an event trace. *)

From Stdlib Require Import ZArith NArith List String Ascii Bool Lia.
From Stdlib Require Import Strings.Byte.
Import ListNotations.
Local Open Scope Z_scope.

Set Implicit Arguments.

(* ------------------------------------------------------------------ *)
(** ** Constants of the platform headers *)

Definition SECURITY_STATUS := Z.

Definition SEC_E_OK : SECURITY_STATUS := 0.
Definition SEC_I_CONTINUE_NEEDED : SECURITY_STATUS := 0x00090312.

Definition AUTH_GSS_ERROR : Z := -1.
Definition AUTH_GSS_COMPLETE : Z := 1.
Definition AUTH_GSS_CONTINUE : Z := 0.

Definition SECQOP_WRAP_NO_ENCRYPT : Z := 0x80000001.
Definition ISC_REQ_ALLOCATE_MEMORY : Z := 0x00000100.

Definition TRUE : Z := 1.
Definition FALSE : Z := 0.

Definition ULONG_modulus : Z := 2 ^ 32.
Definition SIZE_T_modulus : Z := 2 ^ 64.

Definition ulong (z : Z) : Z := z mod ULONG_modulus.
Definition size_t (z : Z) : Z := z mod SIZE_T_modulus.

(** C truth value of an integer. *)
Definition truthy (z : Z) : bool := negb (z =? 0).

(* ------------------------------------------------------------------ *)
(** ** Token codec: the textual encoding *)

Module Base64.

Local Open Scope N_scope.

Definition alphabet : list ascii :=
  list_ascii_of_string
    "ABCDEFGHIJKLMNOPQRSTUVWXYZabcdefghijklmnopqrstuvwxyz0123456789+/".

Definition pad : ascii := "="%char.

(** The character of a 6-bit value. *)
Definition char_of (n : N) : ascii := nth (N.to_nat n) alphabet pad.

Fixpoint index_from (c : ascii) (l : list ascii) (i : N) : option N :=
  match l with
  | [] => None
  | x :: r => if Ascii.eqb c x then Some i else index_from c r (N.succ i)
  end.

(** The 6-bit value of a character of the alphabet. *)
Definition value_of (c : ascii) : option N := index_from c alphabet 0.

Definition byte_of (n : N) : list byte :=
  match Byte.of_N n with
  | Some b => [b]
  | None => []
  end.

(** Three octets become four characters; a final group of one or two
    octets is completed with padding characters. *)
Fixpoint encode (l : list byte) : list ascii :=
  match l with
  | [] => []
  | [a] =>
      let x := Byte.to_N a in
      [char_of (x / 4); char_of ((x mod 4) * 16); pad; pad]
  | [a; b] =>
      let x := Byte.to_N a in
      let y := Byte.to_N b in
      [char_of (x / 4); char_of ((x mod 4) * 16 + y / 16);
       char_of ((y mod 16) * 4); pad]
  | a :: b :: c :: rest =>
      let x := Byte.to_N a in
      let y := Byte.to_N b in
      let z := Byte.to_N c in
      char_of (x / 4) :: char_of ((x mod 4) * 16 + y / 16)
        :: char_of ((y mod 16) * 4 + z / 64) :: char_of (z mod 64)
        :: encode rest
  end.

Definition octet1 (v1 v2 : N) : N := v1 * 4 + v2 / 16.
Definition octet2 (v2 v3 : N) : N := (v2 mod 16) * 16 + v3 / 4.
Definition octet3 (v3 v4 : N) : N := (v3 mod 4) * 64 + v4.

(** The last group of four characters, which may carry padding. *)
Definition decode_last (c1 c2 c3 c4 : ascii) : option (list byte) :=
  match value_of c1, value_of c2 with
  | Some v1, Some v2 =>
      if Ascii.eqb c4 pad then
        if Ascii.eqb c3 pad then
          if v2 mod 16 =? 0 then Some (byte_of (octet1 v1 v2)) else None
        else
          match value_of c3 with
          | Some v3 =>
              if v3 mod 4 =? 0
              then Some (byte_of (octet1 v1 v2) ++ byte_of (octet2 v2 v3))
              else None
          | None => None
          end
      else
        match value_of c3, value_of c4 with
        | Some v3, Some v4 =>
            Some (byte_of (octet1 v1 v2) ++ byte_of (octet2 v2 v3)
                    ++ byte_of (octet3 v3 v4))
        | _, _ => None
        end
  | _, _ => None
  end.

(** Strict decoding: groups of four characters of the alphabet, padding
    only in the last group, nothing else (no white space, no line
    breaks). *)
Fixpoint decode (l : list ascii) : option (list byte) :=
  match l with
  | [] => Some []
  | c1 :: c2 :: c3 :: c4 :: rest =>
      match rest with
      | [] => decode_last c1 c2 c3 c4
      | _ =>
          match value_of c1, value_of c2, value_of c3, value_of c4,
                decode rest with
          | Some v1, Some v2, Some v3, Some v4, Some bs =>
              Some (byte_of (octet1 v1 v2) ++ byte_of (octet2 v2 v3)
                      ++ byte_of (octet3 v3 v4) ++ bs)
          | _, _, _, _, _ => None
          end
      end
  | _ => None
  end.

(** The 6-bit values. *)
Definition sextets : list N := map N.of_nat (seq 0 64).

Definition CR : ascii := Ascii.ascii_of_nat 13.
Definition LF : ascii := Ascii.ascii_of_nat 10.

Definition is_line_break (c : ascii) : bool :=
  Ascii.eqb c CR || Ascii.eqb c LF.

End Base64.

(* ------------------------------------------------------------------ *)
(** ** Handles, heap blocks and results *)

(** [CredHandle] and [CtxtHandle] are both a [SecHandle]. *)
Record SecHandle := { dwLower : Z; dwUpper : Z }.

(** [(ULONG_PTR)((INT_PTR)-1)] *)
Definition ULONG_PTR_MAX : Z := SIZE_T_modulus - 1.

Definition invalid_handle : SecHandle :=
  {| dwLower := ULONG_PTR_MAX; dwUpper := ULONG_PTR_MAX |}.

(** Modelled from the spec: the macros [SecInvalidateHandle] and
    [SecIsValidHandle] of the platform header, which the engine uses to
    mark a handle as absent ("opaque resource; absent until ...") and to
    test for its presence. *)
Definition SecInvalidateHandle (h : SecHandle) : SecHandle := invalid_handle.

Definition SecIsValidHandle (h : SecHandle) : bool :=
  negb (dwLower h =? ULONG_PTR_MAX) && negb (dwUpper h =? ULONG_PTR_MAX).

(** A heap block: its address and what it holds. *)
Record block (A : Type) := { addr : nat; data : A }.

(** An owning pointer; [None] is NULL. *)
Definition ptr (A : Type) := option (block A).

Definition wstring := list Z.

Record sspi_result := { code : Z; message : option string }.

(** What a function hands back through its local result pointer: the
    result it assigned, the NULL it was initialised with, or the
    indeterminate value of a variable that was never assigned. *)
Inductive returned :=
| Returned (r : sspi_result)
| NullResult
| Indeterminate.

(** The tagged outcome of the design: the tag a caller reads off the
    result code. *)
Inductive outcome := Complete | Continue | Error.

Definition outcome_of (r : sspi_result) : option outcome :=
  if code r =? AUTH_GSS_COMPLETE then Some Complete
  else if code r =? AUTH_GSS_CONTINUE then Some Continue
  else if code r =? AUTH_GSS_ERROR then Some Error
  else None.

Definition tag (r : returned) : option outcome :=
  match r with
  | Returned x => outcome_of x
  | NullResult | Indeterminate => None
  end.

(* ------------------------------------------------------------------ *)
(** ** Context states *)

Record sspi_client_state := {
  cl_cred : SecHandle;
  cl_ctx : SecHandle;
  cl_spn : ptr wstring;
  cl_response : ptr string;
  cl_username : ptr string;
  cl_flags : Z;
  cl_haveCred : Z;
  cl_haveCtx : Z;
  cl_qop : Z;
  cl_responseConf : Z;
  cl_context_complete : Z
}.

Record sspi_server_state := {
  sv_ctx : SecHandle;
  sv_cred : SecHandle;
  sv_response : ptr string;
  sv_username : ptr string;
  sv_context_complete : Z;
  sv_targetname : ptr string
}.

Definition set_cl_cred (v : SecHandle) (s : sspi_client_state) :=
  {| cl_cred := v; cl_ctx := cl_ctx s; cl_spn := cl_spn s;
     cl_response := cl_response s; cl_username := cl_username s;
     cl_flags := cl_flags s; cl_haveCred := cl_haveCred s;
     cl_haveCtx := cl_haveCtx s; cl_qop := cl_qop s;
     cl_responseConf := cl_responseConf s;
     cl_context_complete := cl_context_complete s |}.

Definition set_cl_ctx (v : SecHandle) (s : sspi_client_state) :=
  {| cl_cred := cl_cred s; cl_ctx := v; cl_spn := cl_spn s;
     cl_response := cl_response s; cl_username := cl_username s;
     cl_flags := cl_flags s; cl_haveCred := cl_haveCred s;
     cl_haveCtx := cl_haveCtx s; cl_qop := cl_qop s;
     cl_responseConf := cl_responseConf s;
     cl_context_complete := cl_context_complete s |}.

Definition set_cl_spn (v : ptr wstring) (s : sspi_client_state) :=
  {| cl_cred := cl_cred s; cl_ctx := cl_ctx s; cl_spn := v;
     cl_response := cl_response s; cl_username := cl_username s;
     cl_flags := cl_flags s; cl_haveCred := cl_haveCred s;
     cl_haveCtx := cl_haveCtx s; cl_qop := cl_qop s;
     cl_responseConf := cl_responseConf s;
     cl_context_complete := cl_context_complete s |}.

Definition set_cl_response (v : ptr string) (s : sspi_client_state) :=
  {| cl_cred := cl_cred s; cl_ctx := cl_ctx s; cl_spn := cl_spn s;
     cl_response := v; cl_username := cl_username s;
     cl_flags := cl_flags s; cl_haveCred := cl_haveCred s;
     cl_haveCtx := cl_haveCtx s; cl_qop := cl_qop s;
     cl_responseConf := cl_responseConf s;
     cl_context_complete := cl_context_complete s |}.

Definition set_cl_username (v : ptr string) (s : sspi_client_state) :=
  {| cl_cred := cl_cred s; cl_ctx := cl_ctx s; cl_spn := cl_spn s;
     cl_response := cl_response s; cl_username := v;
     cl_flags := cl_flags s; cl_haveCred := cl_haveCred s;
     cl_haveCtx := cl_haveCtx s; cl_qop := cl_qop s;
     cl_responseConf := cl_responseConf s;
     cl_context_complete := cl_context_complete s |}.

Definition set_cl_flags (v : Z) (s : sspi_client_state) :=
  {| cl_cred := cl_cred s; cl_ctx := cl_ctx s; cl_spn := cl_spn s;
     cl_response := cl_response s; cl_username := cl_username s;
     cl_flags := v; cl_haveCred := cl_haveCred s;
     cl_haveCtx := cl_haveCtx s; cl_qop := cl_qop s;
     cl_responseConf := cl_responseConf s;
     cl_context_complete := cl_context_complete s |}.

Definition set_cl_haveCred (v : Z) (s : sspi_client_state) :=
  {| cl_cred := cl_cred s; cl_ctx := cl_ctx s; cl_spn := cl_spn s;
     cl_response := cl_response s; cl_username := cl_username s;
     cl_flags := cl_flags s; cl_haveCred := v;
     cl_haveCtx := cl_haveCtx s; cl_qop := cl_qop s;
     cl_responseConf := cl_responseConf s;
     cl_context_complete := cl_context_complete s |}.

Definition set_cl_haveCtx (v : Z) (s : sspi_client_state) :=
  {| cl_cred := cl_cred s; cl_ctx := cl_ctx s; cl_spn := cl_spn s;
     cl_response := cl_response s; cl_username := cl_username s;
     cl_flags := cl_flags s; cl_haveCred := cl_haveCred s;
     cl_haveCtx := v; cl_qop := cl_qop s;
     cl_responseConf := cl_responseConf s;
     cl_context_complete := cl_context_complete s |}.

Definition set_cl_qop (v : Z) (s : sspi_client_state) :=
  {| cl_cred := cl_cred s; cl_ctx := cl_ctx s; cl_spn := cl_spn s;
     cl_response := cl_response s; cl_username := cl_username s;
     cl_flags := cl_flags s; cl_haveCred := cl_haveCred s;
     cl_haveCtx := cl_haveCtx s; cl_qop := v;
     cl_responseConf := cl_responseConf s;
     cl_context_complete := cl_context_complete s |}.

Definition set_cl_context_complete (v : Z) (s : sspi_client_state) :=
  {| cl_cred := cl_cred s; cl_ctx := cl_ctx s; cl_spn := cl_spn s;
     cl_response := cl_response s; cl_username := cl_username s;
     cl_flags := cl_flags s; cl_haveCred := cl_haveCred s;
     cl_haveCtx := cl_haveCtx s; cl_qop := cl_qop s;
     cl_responseConf := cl_responseConf s;
     cl_context_complete := v |}.

Definition set_sv_ctx (v : SecHandle) (s : sspi_server_state) :=
  {| sv_ctx := v; sv_cred := sv_cred s; sv_response := sv_response s;
     sv_username := sv_username s;
     sv_context_complete := sv_context_complete s;
     sv_targetname := sv_targetname s |}.

Definition set_sv_cred (v : SecHandle) (s : sspi_server_state) :=
  {| sv_ctx := sv_ctx s; sv_cred := v; sv_response := sv_response s;
     sv_username := sv_username s;
     sv_context_complete := sv_context_complete s;
     sv_targetname := sv_targetname s |}.

Definition set_sv_response (v : ptr string) (s : sspi_server_state) :=
  {| sv_ctx := sv_ctx s; sv_cred := sv_cred s; sv_response := v;
     sv_username := sv_username s;
     sv_context_complete := sv_context_complete s;
     sv_targetname := sv_targetname s |}.

Definition set_sv_username (v : ptr string) (s : sspi_server_state) :=
  {| sv_ctx := sv_ctx s; sv_cred := sv_cred s; sv_response := sv_response s;
     sv_username := v;
     sv_context_complete := sv_context_complete s;
     sv_targetname := sv_targetname s |}.

Definition set_sv_context_complete (v : Z) (s : sspi_server_state) :=
  {| sv_ctx := sv_ctx s; sv_cred := sv_cred s; sv_response := sv_response s;
     sv_username := sv_username s;
     sv_context_complete := v;
     sv_targetname := sv_targetname s |}.

Definition set_sv_targetname (v : ptr string) (s : sspi_server_state) :=
  {| sv_ctx := sv_ctx s; sv_cred := sv_cred s; sv_response := sv_response s;
     sv_username := sv_username s;
     sv_context_complete := sv_context_complete s;
     sv_targetname := v |}.

(* ------------------------------------------------------------------ *)
(** ** Events, environment and the engine monad *)

Definition SECPKG_CRED_INBOUND : Z := 1.
Definition SECPKG_CRED_OUTBOUND : Z := 2.

Definition SECPKG_ATTR_SIZES : Z := 0.
Definition SECPKG_ATTR_NAMES : Z := 1.
Definition SECPKG_ATTR_NATIVE_NAMES : Z := 13.

(** One entry per call that leaves the engine. *)
Inductive event :=
| EvMalloc (a : nat)
| EvFree (a : nat)
| EvFreeContextBuffer (a : nat)
| EvCryptBinaryToString (value : list byte)
| EvCryptStringToBinary (value : option string)
| EvInvalidParameter
| EvAcquireCredentialsHandle (package : wstring) (fCredentialUse : Z)
| EvDeleteSecurityContext (ctx : SecHandle)
| EvFreeCredentialsHandle (cred : SecHandle)
| EvInitializeSecurityContext
    (cred : SecHandle) (ctx_in : option SecHandle) (token : option (list byte))
| EvQuerySecurityPackageInfo
| EvAcceptSecurityContext
    (cred : SecHandle) (ctx_in : option SecHandle) (token : list byte)
| EvQueryContextAttributes (ctx : SecHandle) (attr : Z)
| EvImpersonateSecurityContext (ctx : SecHandle)
| EvRevertSecurityContext (ctx : SecHandle)
| EvGetUserName
| EvDecryptMessage (ctx : SecHandle) (stream : list byte) (qop_at_call : Z)
| EvEncryptMessage
    (ctx : SecHandle) (fQOP : Z)
    (token plaintext padding : list (option byte)).

(** The calls that reach the security provider (the capabilities of the
    provider facade); allocation, release of plain buffers and the
    codec are not among them. *)
Definition is_provider_call (e : event) : bool :=
  match e with
  | EvAcquireCredentialsHandle _ _
  | EvDeleteSecurityContext _ | EvFreeCredentialsHandle _
  | EvInitializeSecurityContext _ _ _ | EvQuerySecurityPackageInfo
  | EvAcceptSecurityContext _ _ _ | EvQueryContextAttributes _ _
  | EvImpersonateSecurityContext _ | EvRevertSecurityContext _
  | EvGetUserName | EvDecryptMessage _ _ _
  | EvEncryptMessage _ _ _ _ _ => true
  | _ => false
  end.

(** [SEC_WINNT_AUTH_IDENTITY_W] as [auth_sspi_client_init] fills it: a
    member that is not assigned keeps whatever the stack held ([None]). *)
Record auth_identity := {
  id_User : wstring * Z;
  id_Password : option (wstring * Z);
  id_Domain : option (wstring * Z)
}.

Record context_reply := {
  rp_status : SECURITY_STATUS;
  (** the handle written through [phNewContext], if it was written *)
  rp_context : option SecHandle;
  (** the output token buffer; its [cbBuffer] is the length of its data *)
  rp_output : ptr (list byte)
}.

(** The platform: the security provider and the C run time, as oracles. *)
Record Env := {
  (** does the allocation with this serial number succeed *)
  malloc_ok : nat -> bool;
  (** the value read from a pointer variable that was never written *)
  stack_garbage : option nat;
  FormatMessageA : Z -> option string;
  (** package, credential use, identity; the handle when one is made *)
  AcquireCredentialsHandleW :
    option wstring -> Z -> option auth_identity ->
    SECURITY_STATUS * option SecHandle;
  (** [cbMultiByte = 0] asks for the size *)
  WideCharToMultiByte : option wstring -> Z -> Z * string;
  InitializeSecurityContextW :
    SecHandle -> option SecHandle -> option wstring -> Z ->
    option (list byte) -> option (list byte) -> context_reply;
  QuerySecurityPackageInfoW : SECURITY_STATUS * Z;
  AcceptSecurityContext :
    SecHandle -> option SecHandle -> list byte -> context_reply;
  QueryContextAttributes_names : SecHandle -> SECURITY_STATUS * ptr wstring;
  QueryContextAttributes_native_names :
    SecHandle -> SECURITY_STATUS * ptr wstring;
  (** [cbSecurityTrailer] and [cbBlockSize] *)
  QueryContextAttributes_sizes : SecHandle -> SECURITY_STATUS * (Z * Z);
  ImpersonateSecurityContext : SecHandle -> SECURITY_STATUS;
  GetUserName_size : Z;
  GetUserName : Z * string;
  (** status, decrypted data and the protection level written back *)
  DecryptMessage : SecHandle -> list byte -> Z ->
                   SECURITY_STATUS * list byte * Z;
  (** status and the three buffers as the provider leaves them *)
  EncryptMessage :
    SecHandle -> Z ->
    list (option byte) -> list (option byte) -> list (option byte) ->
    SECURITY_STATUS * (list byte * list byte * list byte)
}.

Record world := { w_next : nat; w_trace : list event }.

(** A computation on a context state [St] in a world. *)
Definition M (St A : Type) : Type := St -> world -> A * St * world.

Definition ret {St A} (a : A) : M St A := fun s w => (a, s, w).

Definition bind {St A B} (c : M St A) (k : A -> M St B) : M St B :=
  fun s w => let '(a, s', w') := c s w in k a s' w'.

Declare Scope engine_scope.
Delimit Scope engine_scope with engine.
Notation "x <- c1 ;; c2" := (bind c1 (fun x => c2))
  (at level 61, c1 at next level, right associativity) : engine_scope.
Notation "c1 ;; c2" := (bind c1 (fun _ => c2))
  (at level 61, right associativity) : engine_scope.
Local Open Scope engine_scope.

Definition gets {St A} (f : St -> A) : M St A := fun s w => (f s, s, w).

Definition modify {St} (f : St -> St) : M St unit := fun s w => (tt, f s, w).

Definition emit {St} (e : event) : M St unit :=
  fun s w => (tt, s, {| w_next := w_next w; w_trace := w_trace w ++ [e] |}).

Definition free {St} (a : nat) : M St unit := emit (EvFree a).

Definition FreeContextBuffer {St} (a : nat) : M St unit :=
  emit (EvFreeContextBuffer a).

(** [if (p != NULL) { free(p); p = NULL; }] on a field of the state. *)
Definition free_and_clear {St A}
    (field : St -> ptr A) (set : ptr A -> St -> St) : M St unit :=
  p <- gets field ;;
  match p with
  | Some b => free (addr b) ;; modify (set None)
  | None => ret tt
  end.

(** The events a computation added to the trace of the world it
    started in. *)
Definition events_since (w w' : world) : list event :=
  skipn (List.length (w_trace w)) (w_trace w').

(** Modelled from the spec: the platform's [CryptBinaryToStringA] with
    the flags [CRYPT_STRING_BASE64 | CRYPT_STRING_NOCRLF], "a standard
    transport-safe textual encoding with no embedded line breaks". *)
Definition CryptBinaryToStringA (value : list byte) : option string :=
  Some (string_of_list_ascii (Base64.encode value)).

(** Modelled from the spec: the platform's [CryptStringToBinaryA] with
    the flag [CRYPT_STRING_BASE64]; it fails on a null string and on
    "malformed textual token input". *)
Definition CryptStringToBinaryA (value : option string)
  : option (list byte) :=
  match value with
  | Some s => Base64.decode (list_ascii_of_string s)
  | None => None
  end.

Definition sspi_success_result (r : Z) : sspi_result :=
  {| code := r; message := None |}.

Definition sspi_error_result_with_message (m : string) : sspi_result :=
  {| code := AUTH_GSS_ERROR; message := Some m |}.

(** [sspi_client_state_new]: the fields it does not assign keep what
    the fresh block [junk] held. *)
Definition sspi_client_state_new (junk : sspi_client_state)
  : sspi_client_state :=
  {| cl_cred := cl_cred junk;
     cl_ctx := cl_ctx junk;
     cl_spn := None;
     cl_response := None;
     cl_username := None;
     cl_flags := cl_flags junk;
     cl_haveCred := cl_haveCred junk;
     cl_haveCtx := cl_haveCtx junk;
     cl_qop := cl_qop junk;
     cl_responseConf := 0;
     cl_context_complete := FALSE |}.

Definition sspi_server_state_new : sspi_server_state :=
  {| sv_ctx := invalid_handle;
     sv_cred := invalid_handle;
     sv_response := None;
     sv_username := None;
     sv_context_complete := FALSE;
     sv_targetname := None |}.

(* ------------------------------------------------------------------ *)
(** ** The engine *)

Section Engine.

Variable E : Env.

(** [malloc]: a fresh block, or NULL when the allocation fails. *)
Definition malloc {St} : M St (option nat) :=
  fun s w =>
    let n := w_next w in
    if malloc_ok E n
    then (Some n, s,
          {| w_next := S n; w_trace := w_trace w ++ [EvMalloc n] |})
    else (None, s, {| w_next := S n; w_trace := w_trace w |}).

Definition sspi_error_result (errCode : Z) (msg : string) : sspi_result :=
  {| code := AUTH_GSS_ERROR;
     message :=
       Some (match FormatMessageA E errCode with
             | Some err => (msg ++ ": " ++ err)%string
             | None => msg
             end) |}.

Definition base64_encode {St} (value : list byte) : M St (ptr string) :=
  (* Get the correct size for the out buffer. *)
  emit (EvCryptBinaryToString value) ;;
  match CryptBinaryToStringA value with
  | Some _ =>
      out <- malloc ;;
      match out with
      | Some a =>
          (* Encode to the out buffer. *)
          emit (EvCryptBinaryToString value) ;;
          match CryptBinaryToStringA value with
          | Some text => ret (Some {| addr := a; data := text |})
          | None => free a ;; ret None
          end
      | None => ret None
      end
  | None => ret None
  end.

Definition base64_decode {St} (value : option string)
  : M St (ptr (list byte)) :=
  (* Get the correct size for the out buffer. *)
  emit (EvCryptStringToBinary value) ;;
  match CryptStringToBinaryA value with
  | Some _ =>
      out <- malloc ;;
      match out with
      | Some a =>
          (* Decode to the out buffer. *)
          emit (EvCryptStringToBinary value) ;;
          match CryptStringToBinaryA value with
          | Some bytes => ret (Some {| addr := a; data := bytes |})
          | None => free a ;; ret None
          end
      | None => ret None
      end
  | None => ret None
  end.

Definition wide_to_utf8 {St} (value : option wstring) : M St (ptr string) :=
  let len := fst (WideCharToMultiByte E value 0) in
  if truthy len then
    out <- malloc ;;
    match out with
    | None => ret None
    | Some a =>
        let '(n, text) := WideCharToMultiByte E value len in
        if truthy n then ret (Some {| addr := a; data := text |})
        else free a ;; ret None
    end
  else ret None.

Definition auth_sspi_client_clean : M sspi_client_state unit :=
  haveCtx <- gets cl_haveCtx ;;
  (if truthy haveCtx then
     ctx <- gets cl_ctx ;;
     emit (EvDeleteSecurityContext ctx) ;;
     modify (set_cl_haveCtx 0)
   else ret tt) ;;
  haveCred <- gets cl_haveCred ;;
  (if truthy haveCred then
     cred <- gets cl_cred ;;
     emit (EvFreeCredentialsHandle cred) ;;
     modify (set_cl_haveCred 0)
   else ret tt) ;;
  free_and_clear cl_spn set_cl_spn ;;
  free_and_clear cl_response set_cl_response ;;
  free_and_clear cl_username set_cl_username.

Definition auth_sspi_server_clean : M sspi_server_state unit :=
  ctx <- gets sv_ctx ;;
  (if SecIsValidHandle ctx then
     emit (EvDeleteSecurityContext ctx) ;;
     modify (set_sv_ctx (SecInvalidateHandle ctx))
   else ret tt) ;;
  cred <- gets sv_cred ;;
  (if SecIsValidHandle cred then
     emit (EvFreeCredentialsHandle cred) ;;
     modify (set_sv_cred (SecInvalidateHandle cred))
   else ret tt) ;;
  free_and_clear sv_response set_sv_response ;;
  free_and_clear sv_username set_sv_username ;;
  free_and_clear sv_targetname set_sv_targetname.

Definition w_nonempty (s : wstring) : bool :=
  match s with
  | [] => false
  | c :: _ => truthy c
  end.

Definition wide_Negotiate : wstring :=
  [78; 101; 103; 111; 116; 105; 97; 116; 101].

Definition auth_sspi_client_init
    (service : wstring) (flags : Z)
    (user : wstring) (ulen : Z) (domain : wstring) (dlen : Z)
    (password : wstring) (plen : Z) (mechoid : option wstring)
  : M sspi_client_state returned :=
  modify (set_cl_response None) ;;
  modify (set_cl_username None) ;;
  modify (set_cl_qop SECQOP_WRAP_NO_ENCRYPT) ;;
  modify (set_cl_flags flags) ;;
  modify (set_cl_haveCred 0) ;;
  modify (set_cl_haveCtx 0) ;;
  (* state->spn = _wcsdup(service); *)
  spn <- malloc ;;
  modify (set_cl_spn
            (option_map (fun a => {| addr := a; data := service |}) spn)) ;;
  match spn with
  | None =>
      ret (Returned (sspi_error_result_with_message
                       "Ran out of memory assigning service"))
  | Some _ =>
      let authIdentity :=
        if w_nonempty user then
          Some {| id_User := (user, ulen);
                  id_Password :=
                    if w_nonempty password then Some (password, plen)
                    else None;
                  id_Domain :=
                    if w_nonempty domain then Some (domain, dlen)
                    else None |}
        else None in
      emit (EvAcquireCredentialsHandle
              (match mechoid with Some m => m | None => [] end)
              SECPKG_CRED_OUTBOUND) ;;
      let '(status, cred) :=
        AcquireCredentialsHandleW E mechoid SECPKG_CRED_OUTBOUND
          authIdentity in
      match cred with
      | Some h => modify (set_cl_cred h)
      | None => ret tt
      end ;;
      if negb (status =? SEC_E_OK) then
        ret (Returned (sspi_error_result status "AcquireCredentialsHandle"))
      else
        modify (set_cl_haveCred 1) ;;
        ret (Returned (sspi_success_result AUTH_GSS_COMPLETE))
  end.

Definition auth_sspi_server_init (service : wstring)
  : M sspi_server_state returned :=
  auth_sspi_server_clean ;;
  emit (EvAcquireCredentialsHandle wide_Negotiate SECPKG_CRED_INBOUND) ;;
  let '(status, cred) :=
    AcquireCredentialsHandleW E (Some wide_Negotiate) SECPKG_CRED_INBOUND
      None in
  match cred with
  | Some h => modify (set_sv_cred h)
  | None => ret tt
  end ;;
  if negb (status =? SEC_E_OK) then
    ret (Returned (sspi_error_result status "AcquireCredentialsHandle"))
  else ret (Returned (sspi_success_result AUTH_GSS_COMPLETE)).

(** The label [done] of [auth_sspi_client_step]: the decoded challenge
    and the provider's output buffer are released, and the local
    [result] is returned as it stands. *)
Definition client_step_done
    (token : ptr (list byte)) (out : ptr (list byte)) (result : returned)
  : M sspi_client_state returned :=
  (* if (haveToken) free(inBufs[tokenBufferIndex].pvBuffer); *)
  match token with
  | Some b => free (addr b)
  | None => ret tt
  end ;;
  match out with
  | Some b => FreeContextBuffer (addr b)
  | None => ret tt
  end ;;
  ret result.

(** [auth_sspi_client_step] from the call of the provider on; [token]
    is the decoded challenge when there is one ([haveToken]). *)
Definition client_step_negotiate
    (token : ptr (list byte)) (bindings : option (list byte))
  : M sspi_client_state returned :=
  st <- gets (fun s => s) ;;
  let ctx_in := if truthy (cl_haveCtx st) then Some (cl_ctx st) else None in
  let input := option_map (@data _) token in
  emit (EvInitializeSecurityContext (cl_cred st) ctx_in input) ;;
  let reply :=
    InitializeSecurityContextW E (cl_cred st) ctx_in
      (option_map (@data _) (cl_spn st))
      (Z.lor ISC_REQ_ALLOCATE_MEMORY (cl_flags st)) bindings input in
  match rp_context reply with
  | Some h => modify (set_cl_ctx h)
  | None => ret tt
  end ;;
  let status := rp_status reply in
  let out := rp_output reply in
  if negb (status =? SEC_E_OK) && negb (status =? SEC_I_CONTINUE_NEEDED)
  then
    client_step_done token out
      (Returned (sspi_error_result status "InitializeSecurityContext"))
  else
    modify (set_cl_haveCtx 1) ;;
    modify (set_cl_context_complete TRUE) ;;
    (* if (outBufs[0].cbBuffer) *)
    encoded <-
      match out with
      | Some b =>
          if negb (Z.of_nat (List.length (data b)) =? 0) then
            response <- base64_encode (data b) ;;
            modify (set_cl_response response) ;;
            ret (match response with Some _ => true | None => false end)
          else ret true
      | None => ret true
      end ;;
    if negb encoded then
      (* status = AUTH_GSS_ERROR; goto done; -- result was never set *)
      client_step_done token out Indeterminate
    else if status =? SEC_E_OK then
      (* Get authenticated username. *)
      ctx <- gets cl_ctx ;;
      emit (EvQueryContextAttributes ctx SECPKG_ATTR_NAMES) ;;
      let '(qstatus, sUserName) := QueryContextAttributes_names E ctx in
      if negb (qstatus =? SEC_E_OK) then
        client_step_done token out
          (Returned (sspi_error_result qstatus "QueryContextAttributesW"))
      else
        username <- wide_to_utf8 (option_map (@data _) sUserName) ;;
        modify (set_cl_username username) ;;
        match username with
        | None =>
            client_step_done token out
              (Returned (sspi_error_result_with_message
                           "Unable to allocate memory for username"))
        | Some _ =>
            match sUserName with
            | Some b => FreeContextBuffer (addr b)
            | None => ret tt
            end ;;
            client_step_done token out
              (Returned (sspi_success_result AUTH_GSS_COMPLETE))
        end
    else
      client_step_done token out
        (Returned (sspi_success_result AUTH_GSS_CONTINUE)).

Definition auth_sspi_client_step
    (challenge : option string) (bindings : option (list byte))
  : M sspi_client_state returned :=
  free_and_clear cl_response set_cl_response ;;
  haveCtx <- gets cl_haveCtx ;;
  if truthy haveCtx then
    (* haveToken = TRUE *)
    pvBuffer <- base64_decode challenge ;;
    match pvBuffer with
    | None =>
        ret (Returned (sspi_error_result_with_message
                         "Unable to base64 decode pvBuffer"))
    | Some _ => client_step_negotiate pvBuffer bindings
    end
  else client_step_negotiate None bindings.

(** [challenge && *challenge], and [*user]: the text has a first
    character. *)
Definition c_nonempty (s : string) : bool :=
  match s with
  | EmptyString => false
  | String _ _ => true
  end.

(** The label [end] of [auth_sspi_server_step]; [OutSecBuff_pv] is the
    value the local [OutSecBuff.pvBuffer] holds when the label is
    reached. *)
Definition server_step_end
    (InSecBuff : ptr (list byte)) (OutSecBuff_pv : option nat)
    (result : returned)
  : M sspi_server_state returned :=
  match InSecBuff with
  | Some b => free (addr b)
  | None => ret tt
  end ;;
  match OutSecBuff_pv with
  | Some a => free a
  | None => ret tt
  end ;;
  ret result.

(** [auth_sspi_server_step] once the challenge is decoded. *)
Definition server_step_accept (InSecBuff : block (list byte))
  : M sspi_server_state returned :=
  emit EvQuerySecurityPackageInfo ;;
  let '(qstatus, cbMaxToken) := QuerySecurityPackageInfoW E in
  if negb (qstatus =? SEC_E_OK) then
    (* OutSecBuff.pvBuffer has not been written yet *)
    server_step_end (Some InSecBuff) (stack_garbage E)
      (Returned (sspi_error_result_with_message
                   "Unable to get max token size for output buffer"))
  else
    (* Prepare output buffer *)
    pvBuffer <- malloc ;;
    match pvBuffer with
    | None =>
        server_step_end (Some InSecBuff) None
          (Returned (sspi_error_result_with_message
                       "Unable to allocate memory for output buffer"))
    | Some out =>
        st <- gets (fun s => s) ;;
        let ctx_in :=
          if SecIsValidHandle (sv_ctx st) then Some (sv_ctx st) else None in
        emit (EvAcceptSecurityContext (sv_cred st) ctx_in (data InSecBuff)) ;;
        let reply :=
          AcceptSecurityContext E (sv_cred st) ctx_in (data InSecBuff) in
        match rp_context reply with
        | Some h => modify (set_sv_ctx h)
        | None => ret tt
        end ;;
        let ss := rp_status reply in
        (* what the provider wrote to the output buffer *)
        let token :=
          match rp_output reply with
          | Some b => data b
          | None => []
          end in
        (* Check if ready. *)
        if ss =? SEC_E_OK then
          modify (set_sv_context_complete TRUE) ;;
          (* Get authenticated username. *)
          ctx <- gets sv_ctx ;;
          emit (EvQueryContextAttributes ctx SECPKG_ATTR_NATIVE_NAMES) ;;
          let '(nstatus, sClientName) :=
            QueryContextAttributes_native_names E ctx in
          if nstatus =? SEC_E_OK then
            username <- wide_to_utf8 (option_map (@data _) sClientName) ;;
            modify (set_sv_username username) ;;
            match sClientName with
            | Some b => FreeContextBuffer (addr b)
            | None => ret tt
            end ;;
            match username with
            | None =>
                server_step_end (Some InSecBuff) (Some out)
                  (Returned (sspi_error_result_with_message
                               "Unable to allocate memory for username"))
            | Some _ =>
                server_step_end (Some InSecBuff) (Some out)
                  (Returned (sspi_success_result AUTH_GSS_COMPLETE))
            end
          else
            (* Impersonate the client (only if native names failed). *)
            emit (EvImpersonateSecurityContext ctx) ;;
            if ImpersonateSecurityContext E ctx =? SEC_E_OK then
              (* Get username *)
              emit EvGetUserName ;;
              name <- malloc ;;
              match name with
              | None =>
                  modify (set_sv_username None) ;;
                  server_step_end (Some InSecBuff) (Some out)
                    (Returned (sspi_error_result_with_message
                                 "Unable to allocate memory for username"))
              | Some a =>
                  emit EvGetUserName ;;
                  let '(ok, text) := GetUserName E in
                  modify (set_sv_username (Some {| addr := a; data := text |})) ;;
                  if negb (truthy ok) then
                    server_step_end (Some InSecBuff) (Some out)
                      (Returned (sspi_error_result_with_message
                                   "Unable to obtain username"))
                  else
                    emit (EvRevertSecurityContext ctx) ;;
                    server_step_end (Some InSecBuff) (Some out)
                      (Returned (sspi_success_result AUTH_GSS_COMPLETE))
              end
            else
              server_step_end (Some InSecBuff) (Some out)
                (Returned (sspi_error_result_with_message
                             "Unable to obtain username"))
        (* Continue if applicable. *)
        else if ss =? SEC_I_CONTINUE_NEEDED then
          response <- base64_encode token ;;
          modify (set_sv_response response) ;;
          match response with
          | None =>
              server_step_end (Some InSecBuff) (Some out)
                (Returned (sspi_error_result_with_message
                             "Unable to base64 encode response message"))
          | Some _ =>
              server_step_end (Some InSecBuff) (Some out)
                (Returned (sspi_success_result AUTH_GSS_CONTINUE))
          end
        (* Clear the context when reached an invalid/error state that
           cannot be handled *)
        else if negb (ss =? SEC_E_OK) then
          ctx <- gets sv_ctx ;;
          (if SecIsValidHandle ctx then
             emit (EvDeleteSecurityContext ctx) ;;
             modify (set_sv_ctx (SecInvalidateHandle ctx))
           else ret tt) ;;
          server_step_end (Some InSecBuff) (Some out)
            (Returned (sspi_error_result ss "AcceptSecurityContext failed"))
        else
          server_step_end (Some InSecBuff) (Some out) NullResult
    end.

Definition auth_sspi_server_step (challenge : option string)
  : M sspi_server_state returned :=
  (* Clear the context if it is a new request *)
  complete <- gets sv_context_complete ;;
  (if truthy complete then
     ctx <- gets sv_ctx ;;
     (if SecIsValidHandle ctx then
        emit (EvDeleteSecurityContext ctx) ;;
        modify (set_sv_ctx (SecInvalidateHandle ctx))
      else ret tt) ;;
     free_and_clear sv_username set_sv_username ;;
     modify (set_sv_context_complete FALSE)
   else ret tt) ;;
  (* Always clear the old response *)
  free_and_clear sv_response set_sv_response ;;
  (* If there is a challenge (data from the client) we need to give it
     to SSPI *)
  if match challenge with Some s => c_nonempty s | None => false end then
    pvBuffer <- base64_decode challenge ;;
    match pvBuffer with
    | None =>
        ret (Returned (sspi_error_result_with_message
                         "Unable to base64 decode challenge"))
    | Some InSecBuff => server_step_accept InSecBuff
    end
  else
    ret (Returned (sspi_error_result_with_message
                     "No challenge parameter in request from client")).

Definition uninitialized_context_message : string :=
  "Uninitialized security context. You must use authGSSClientStep to initialize the security context before calling this function.".

Definition auth_sspi_client_unwrap (challenge : option string)
  : M sspi_client_state returned :=
  response <- gets cl_response ;;
  match response with
  | Some b =>
      free (addr b) ;;
      modify (set_cl_response None) ;;
      modify (set_cl_qop SECQOP_WRAP_NO_ENCRYPT)
  | None => ret tt
  end ;;
  haveCtx <- gets cl_haveCtx ;;
  if negb (truthy haveCtx) then
    ret (Returned (sspi_error_result_with_message
                     uninitialized_context_message))
  else
    pvBuffer <- base64_decode challenge ;;
    match pvBuffer with
    | None =>
        ret (Returned (sspi_error_result_with_message
                         "Unable to decode base64 response"))
    | Some stream =>
        st <- gets (fun s => s) ;;
        emit (EvDecryptMessage (cl_ctx st) (data stream) (cl_qop st)) ;;
        let '(status, plain, qop') :=
          DecryptMessage E (cl_ctx st) (data stream) (cl_qop st) in
        modify (set_cl_qop qop') ;;
        result <-
          (if negb (status =? SEC_E_OK) then
             ret (Returned (sspi_error_result status "DecryptMessage"))
           else if negb (Z.of_nat (List.length plain) =? 0) then
             encoded <- base64_encode plain ;;
             modify (set_cl_response encoded) ;;
             match encoded with
             | None =>
                 ret (Returned (sspi_error_result_with_message
                                  "Unable to base64 encode decrypted message"))
             | Some _ => ret (Returned (sspi_success_result AUTH_GSS_COMPLETE))
             end
           else ret (Returned (sspi_success_result AUTH_GSS_COMPLETE))) ;;
        (* done: *)
        free (addr stream) ;;
        ret result
    end.

(** A working buffer: [None] is a byte that was never written. *)
Definition arena := list (option byte).

(** Writing [bytes] at offset [off]; the buffer keeps its size. *)
Fixpoint store (a : arena) (off : nat) (bytes : list byte) : arena :=
  match a with
  | [] => []
  | x :: r =>
      match off with
      | S n => x :: store r n bytes
      | O =>
          match bytes with
          | [] => a
          | b :: bs => Some b :: store r O bs
          end
      end
  end.

Definition slice (a : arena) (off len : Z) : arena :=
  firstn (Z.to_nat len) (skipn (Z.to_nat off) a).

(** [memcpy_s(dest, destsz, src, count)], [dest] being the offset [off]
    in the working buffer: a copy that does not fit clears the
    destination and reports the invalid parameter. *)
Definition memcpy_s {St} (a : arena) (off destsz : Z) (src : list byte)
    (count : Z) : M St arena :=
  if count =? 0 then ret a
  else if destsz <? count then
    emit EvInvalidParameter ;;
    ret (store a (Z.to_nat off) (repeat x00 (Z.to_nat destsz)))
  else ret (store a (Z.to_nat off) (firstn (Z.to_nat count) src)).

Definition strlen (s : string) : Z := Z.of_nat (String.length s).

Definition auth_sspi_client_wrap
    (data_arg : option string) (user : string) (ulen : Z) (protect : Z)
  : M sspi_client_state returned :=
  free_and_clear cl_response set_cl_response ;;
  haveCtx <- gets cl_haveCtx ;;
  if negb (truthy haveCtx) then
    ret (Returned (sspi_error_result_with_message
                     uninitialized_context_message))
  else
    ctx <- gets cl_ctx ;;
    emit (EvQueryContextAttributes ctx SECPKG_ATTR_SIZES) ;;
    let '(status, (cbSecurityTrailer, cbBlockSize)) :=
      QueryContextAttributes_sizes E ctx in
    if negb (status =? SEC_E_OK) then
      ret (Returned (sspi_error_result status "QueryContextAttributes"))
    else
      (* the plaintext size, and the decoded data when no user is given *)
      sized <-
        (if c_nonempty user then
           (* Length of user + 4 bytes for security layer. *)
           ret (Some (ulong (ulen + 4), None))
         else
           decodedData <- base64_decode data_arg ;;
           match decodedData with
           | None => ret None
           | Some b =>
               ret (Some (ulong (Z.of_nat (List.length (data b))),
                          decodedData))
           end) ;;
      match sized with
      | None =>
          ret (Returned (sspi_error_result_with_message
                           "Unable to base64 decode message"))
      | Some (plaintextMessageSize, decodedData) =>
          let inbufSize :=
            ulong (cbSecurityTrailer + plaintextMessageSize + cbBlockSize) in
          inbuf <- malloc ;;
          match inbuf with
          | None =>
              match decodedData with
              | Some b => free (addr b)
              | None => ret tt
              end ;;
              ret (Returned (sspi_error_result_with_message
                               "Unable to allocate memory for buffer"))
          | Some inbuf_addr =>
              let fresh : arena := repeat None (Z.to_nat inbufSize) in
              filled <-
                (if c_nonempty user then
                   (* Authenticate the provided user. *)
                   let header :=
                     store fresh (Z.to_nat cbSecurityTrailer)
                       [x01 (* No security layer *); x00; x00; x00] in
                   memcpy_s header (cbSecurityTrailer + 4)
                     (size_t (inbufSize - cbSecurityTrailer - 4))
                     (list_byte_of_string user) (strlen user)
                 else
                   (* No user provided. Just rewrap data. *)
                   match decodedData with
                   | Some b =>
                       copied <-
                         memcpy_s fresh cbSecurityTrailer
                           (size_t (inbufSize - cbSecurityTrailer))
                           (data b) plaintextMessageSize ;;
                       free (addr b) ;;
                       ret copied
                   | None => ret fresh
                   end) ;;
              let fQOP :=
                if truthy protect then 0 else SECQOP_WRAP_NO_ENCRYPT in
              let trailer := slice filled 0 cbSecurityTrailer in
              let plaintextMessage :=
                slice filled cbSecurityTrailer plaintextMessageSize in
              let padding :=
                slice filled
                  (ulong (cbSecurityTrailer + plaintextMessageSize))
                  cbBlockSize in
              emit (EvEncryptMessage ctx fQOP
                      trailer plaintextMessage padding) ;;
              let '(estatus, (token, cipher, pad)) :=
                EncryptMessage E ctx fQOP trailer plaintextMessage padding in
              if negb (estatus =? SEC_E_OK) then
                free inbuf_addr ;;
                ret (Returned (sspi_error_result estatus "EncryptMessage"))
              else
                outbuf <- malloc ;;
                match outbuf with
                | None =>
                    free inbuf_addr ;;
                    ret (Returned (sspi_error_result_with_message
                                     "Unable to allocate memory for out buffer"))
                | Some outbuf_addr =>
                    response <- base64_encode (token ++ cipher ++ pad) ;;
                    modify (set_cl_response response) ;;
                    free inbuf_addr ;;
                    free outbuf_addr ;;
                    ret (match response with
                         | None =>
                             Returned (sspi_error_result_with_message
                                         "Unable to base64 decode outbuf")
                         | Some _ =>
                             Returned (sspi_success_result AUTH_GSS_COMPLETE)
                         end)
                end
          end
      end.

End Engine.

(* ------------------------------------------------------------------ *)
(** ** Observations on contexts and traces *)

(** The server context once a completed exchange has been put aside:
    security context discarded, principal cleared, not complete. *)
Definition server_begin_request (st : sspi_server_state)
  : sspi_server_state :=
  set_sv_context_complete FALSE
    (set_sv_username None
       (if SecIsValidHandle (sv_ctx st)
        then set_sv_ctx invalid_handle st else st)).

(** The releases that putting a completed exchange aside performs. *)
Definition server_release_events (st : sspi_server_state) : list event :=
  (if SecIsValidHandle (sv_ctx st)
   then [EvDeleteSecurityContext (sv_ctx st)] else [])
  ++ match sv_username st with
     | Some b => [EvFree (addr b)]
     | None => []
     end.

(** How many times the block at [a] is released in a trace. *)
Definition frees (a : nat) (evs : list event) : nat :=
  List.length (filter (fun e => match e with
                                | EvFree x => Nat.eqb x a
                                | _ => false
                                end) evs).

(** Whether the block at [a] is allocated in a trace. *)
Definition allocated (a : nat) (evs : list event) : bool :=
  existsb (fun e => match e with
                    | EvMalloc x => Nat.eqb x a
                    | _ => false
                    end) evs.

(** A context and its world, and what an operation makes of them. *)
Definition after {St A} (c : M St A) (sw : St * world) : St * world :=
  let '(_, s, w) := c (fst sw) (snd sw) in (s, w).

(** The events that release something. *)
Definition is_release (e : event) : bool :=
  match e with
  | EvFree _ | EvFreeContextBuffer _
  | EvDeleteSecurityContext _ | EvFreeCredentialsHandle _ => true
  | _ => false
  end.

(** The address a pointer holds, as a list: empty for NULL. *)
Definition held {A} (p : ptr A) : list nat :=
  match p with
  | Some b => [addr b]
  | None => []
  end.

(** The releases [auth_sspi_server_clean] performs on a context. *)
Definition server_clean_events (st : sspi_server_state) : list event :=
  (if SecIsValidHandle (sv_ctx st)
   then [EvDeleteSecurityContext (sv_ctx st)] else [])
  ++ (if SecIsValidHandle (sv_cred st)
      then [EvFreeCredentialsHandle (sv_cred st)] else [])
  ++ map EvFree (held (sv_response st) ++ held (sv_username st)
                   ++ held (sv_targetname st)).

(** A stored principal belongs to a completed exchange. *)
Definition sv_consistent (st : sspi_server_state) : Prop :=
  sv_username st = None \/ truthy (sv_context_complete st) = true.

(** Blocks obtained from [malloc] during a call are either held by the
    context afterwards and not released, or released exactly once; and
    nothing is released that was neither obtained during the call nor
    held by the context before it. *)
Definition disciplined (before after : list nat) (evs : list event) : Prop :=
  forall a,
    (allocated a evs = true ->
     (In a after /\ frees a evs = 0%nat)
     \/ (~ In a after /\ frees a evs = 1%nat)) /\
    ((0 < frees a evs)%nat ->
     allocated a evs = true
     \/ (In a before /\ ~ In a after /\ frees a evs = 1%nat)).

(** What the provider wrote to the output buffer of an accept call. *)
Definition accept_output (reply : context_reply) : list byte :=
  match rp_output reply with
  | Some b => data b
  | None => []
  end.

(** The provider's blocks handed back to it, in order. *)
Definition context_released (evs : list event) : list nat :=
  flat_map (fun e => match e with
                     | EvFreeContextBuffer a => [a]
                     | _ => []
                     end) evs.

(* ------------------------------------------------------------------ *)
(** ** The result objects of a server step *)

(** [sspi_success_result], [sspi_error_result] and
    [sspi_error_result_with_message] each return a block of their own,
    and [auth_sspi_server_step] frees none: a result that is assigned to
    the local [ret] and then replaced stays allocated. The definitions
    below follow [auth_sspi_server_step] line by line once more and
    keep, beside what it returns, the results it has made, oldest
    first. *)
Section Results.

Variable E : Env.

(** The local [ret]: the result made last, [NULL] before the first. *)
Definition ret_of (made : list sspi_result) : returned :=
  match rev made with
  | r :: _ => Returned r
  | [] => NullResult
  end.

(** The label [end], returning [ret]. *)
Definition server_step_end_made
    (InSecBuff : ptr (list byte)) (OutSecBuff_pv : option nat)
    (made : list sspi_result)
  : M sspi_server_state (returned * list sspi_result) :=
  r <- server_step_end InSecBuff OutSecBuff_pv (ret_of made) ;;
  ret (r, made).

Definition server_step_accept_made (InSecBuff : block (list byte))
  : M sspi_server_state (returned * list sspi_result) :=
  emit EvQuerySecurityPackageInfo ;;
  let '(qstatus, cbMaxToken) := QuerySecurityPackageInfoW E in
  if negb (qstatus =? SEC_E_OK) then
    server_step_end_made (Some InSecBuff) (stack_garbage E)
      [sspi_error_result_with_message
         "Unable to get max token size for output buffer"]
  else
    (* Prepare output buffer *)
    pvBuffer <- malloc E ;;
    match pvBuffer with
    | None =>
        server_step_end_made (Some InSecBuff) None
          [sspi_error_result_with_message
             "Unable to allocate memory for output buffer"]
    | Some out =>
        st <- gets (fun s => s) ;;
        let ctx_in :=
          if SecIsValidHandle (sv_ctx st) then Some (sv_ctx st) else None in
        emit (EvAcceptSecurityContext (sv_cred st) ctx_in (data InSecBuff)) ;;
        let reply :=
          AcceptSecurityContext E (sv_cred st) ctx_in (data InSecBuff) in
        match rp_context reply with
        | Some h => modify (set_sv_ctx h)
        | None => ret tt
        end ;;
        let ss := rp_status reply in
        let token :=
          match rp_output reply with
          | Some b => data b
          | None => []
          end in
        (* Check if ready. *)
        if ss =? SEC_E_OK then
          modify (set_sv_context_complete TRUE) ;;
          (* ret = sspi_success_result(AUTH_GSS_COMPLETE); *)
          let made := [sspi_success_result AUTH_GSS_COMPLETE] in
          (* Get authenticated username. *)
          ctx <- gets sv_ctx ;;
          emit (EvQueryContextAttributes ctx SECPKG_ATTR_NATIVE_NAMES) ;;
          let '(nstatus, sClientName) :=
            QueryContextAttributes_native_names E ctx in
          if nstatus =? SEC_E_OK then
            username <- wide_to_utf8 E (option_map (@data _) sClientName) ;;
            modify (set_sv_username username) ;;
            match sClientName with
            | Some b => FreeContextBuffer (addr b)
            | None => ret tt
            end ;;
            match username with
            | None =>
                server_step_end_made (Some InSecBuff) (Some out)
                  (made ++ [sspi_error_result_with_message
                              "Unable to allocate memory for username"])
            | Some _ =>
                server_step_end_made (Some InSecBuff) (Some out) made
            end
          else
            (* Impersonate the client (only if native names failed). *)
            emit (EvImpersonateSecurityContext ctx) ;;
            if ImpersonateSecurityContext E ctx =? SEC_E_OK then
              (* Get username *)
              emit EvGetUserName ;;
              name <- malloc E ;;
              match name with
              | None =>
                  modify (set_sv_username None) ;;
                  server_step_end_made (Some InSecBuff) (Some out)
                    (made ++ [sspi_error_result_with_message
                                "Unable to allocate memory for username"])
              | Some a =>
                  emit EvGetUserName ;;
                  let '(ok, text) := GetUserName E in
                  modify (set_sv_username (Some {| addr := a; data := text |})) ;;
                  if negb (truthy ok) then
                    server_step_end_made (Some InSecBuff) (Some out)
                      (made ++ [sspi_error_result_with_message
                                  "Unable to obtain username"])
                  else
                    emit (EvRevertSecurityContext ctx) ;;
                    server_step_end_made (Some InSecBuff) (Some out) made
              end
            else
              server_step_end_made (Some InSecBuff) (Some out)
                (made ++ [sspi_error_result_with_message
                            "Unable to obtain username"])
        (* Continue if applicable. *)
        else if ss =? SEC_I_CONTINUE_NEEDED then
          response <- base64_encode E token ;;
          modify (set_sv_response response) ;;
          match response with
          | None =>
              server_step_end_made (Some InSecBuff) (Some out)
                [sspi_error_result_with_message
                   "Unable to base64 encode response message"]
          | Some _ =>
              server_step_end_made (Some InSecBuff) (Some out)
                [sspi_success_result AUTH_GSS_CONTINUE]
          end
        (* Clear the context when reached an invalid/error state that
           cannot be handled *)
        else if negb (ss =? SEC_E_OK) then
          (* ret = sspi_error_result(ss, "AcceptSecurityContext failed"); *)
          let made := [sspi_error_result E ss "AcceptSecurityContext failed"] in
          ctx <- gets sv_ctx ;;
          (if SecIsValidHandle ctx then
             emit (EvDeleteSecurityContext ctx) ;;
             modify (set_sv_ctx (SecInvalidateHandle ctx))
           else ret tt) ;;
          server_step_end_made (Some InSecBuff) (Some out) made
        else
          server_step_end_made (Some InSecBuff) (Some out) []
    end.

Definition auth_sspi_server_step_made (challenge : option string)
  : M sspi_server_state (returned * list sspi_result) :=
  (* Clear the context if it is a new request *)
  complete <- gets sv_context_complete ;;
  (if truthy complete then
     ctx <- gets sv_ctx ;;
     (if SecIsValidHandle ctx then
        emit (EvDeleteSecurityContext ctx) ;;
        modify (set_sv_ctx (SecInvalidateHandle ctx))
      else ret tt) ;;
     free_and_clear sv_username set_sv_username ;;
     modify (set_sv_context_complete FALSE)
   else ret tt) ;;
  (* Always clear the old response *)
  free_and_clear sv_response set_sv_response ;;
  if match challenge with Some s => c_nonempty s | None => false end then
    pvBuffer <- base64_decode E challenge ;;
    match pvBuffer with
    | None =>
        (* return sspi_error_result_with_message(...); *)
        let made := [sspi_error_result_with_message
                       "Unable to base64 decode challenge"] in
        ret (ret_of made, made)
    | Some InSecBuff => server_step_accept_made InSecBuff
    end
  else
    let made := [sspi_error_result_with_message
                   "No challenge parameter in request from client"] in
    ret (ret_of made, made).

End Results.

(* ------------------------------------------------------------------ *)
(** ** A recording stub of the platform, and sample sessions *)

Module Stub.

Local Open Scope string_scope.

Definition context1 : SecHandle := {| dwLower := 17; dwUpper := 0 |}.
Definition credential1 : SecHandle := {| dwLower := 5; dwUpper := 0 |}.

(** "http@h" and "Kerberos" as wide strings. *)
Definition service : wstring := [104; 116; 116; 112; 64; 104].
Definition wide_Kerberos : wstring := [75; 101; 114; 98; 101; 114; 111; 115].

(** A provider that asks for one more round on the first call and
    accepts on the next, whose messages carry a three-byte header, on a
    platform where every allocation succeeds and uninitialised pointers
    hold a stale address. *)
Definition env : Env := {|
  malloc_ok := fun _ => true;
  stack_garbage := Some 4096%nat;
  FormatMessageA := fun _ => None;
  AcquireCredentialsHandleW := fun _ _ _ => (SEC_E_OK, Some credential1);
  WideCharToMultiByte := fun _ _ => (6, "alice");
  InitializeSecurityContextW := fun _ ctx _ _ _ _ =>
    {| rp_status :=
         match ctx with
         | None => SEC_I_CONTINUE_NEEDED
         | Some _ => SEC_E_OK
         end;
       rp_context := Some context1;
       rp_output := Some {| addr := 900%nat; data := [x60; x82; x00] |} |};
  QuerySecurityPackageInfoW := (SEC_E_OK, 48256);
  AcceptSecurityContext := fun _ ctx _ =>
    {| rp_status :=
         match ctx with
         | None => SEC_I_CONTINUE_NEEDED
         | Some _ => SEC_E_OK
         end;
       rp_context := Some context1;
       rp_output := Some {| addr := 0%nat; data := [xa1; x14] |} |};
  QueryContextAttributes_names := fun _ =>
    (SEC_E_OK, Some {| addr := 901%nat; data := [97; 108; 105; 99; 101] |});
  QueryContextAttributes_native_names := fun _ =>
    (SEC_E_OK, Some {| addr := 902%nat; data := [97; 108; 105; 99; 101] |});
  QueryContextAttributes_sizes := fun _ => (SEC_E_OK, (2, 3));
  ImpersonateSecurityContext := fun _ => SEC_E_OK;
  GetUserName_size := 6;
  GetUserName := (1, "alice");
  DecryptMessage := fun _ stream _ => (SEC_E_OK, skipn 3 stream, 0);
  EncryptMessage := fun _ _ t d p =>
    (SEC_E_OK,
     (repeat xff (List.length t),
      map (fun b => match b with Some x => x | None => x00 end) d,
      repeat x00 (List.length p)))
|}.

(** The same platform with another allocator. *)
Definition with_malloc (f : nat -> bool) (e : Env) : Env := {|
  malloc_ok := f;
  stack_garbage := stack_garbage e;
  FormatMessageA := FormatMessageA e;
  AcquireCredentialsHandleW := AcquireCredentialsHandleW e;
  WideCharToMultiByte := WideCharToMultiByte e;
  InitializeSecurityContextW := InitializeSecurityContextW e;
  QuerySecurityPackageInfoW := QuerySecurityPackageInfoW e;
  AcceptSecurityContext := AcceptSecurityContext e;
  QueryContextAttributes_names := QueryContextAttributes_names e;
  QueryContextAttributes_native_names :=
    QueryContextAttributes_native_names e;
  QueryContextAttributes_sizes := QueryContextAttributes_sizes e;
  ImpersonateSecurityContext := ImpersonateSecurityContext e;
  GetUserName_size := GetUserName_size e;
  GetUserName := GetUserName e;
  DecryptMessage := DecryptMessage e;
  EncryptMessage := EncryptMessage e
|}.

(** The same platform with another answer to the token size query. *)
Definition with_package_info (r : SECURITY_STATUS * Z) (e : Env) : Env := {|
  malloc_ok := malloc_ok e;
  stack_garbage := stack_garbage e;
  FormatMessageA := FormatMessageA e;
  AcquireCredentialsHandleW := AcquireCredentialsHandleW e;
  WideCharToMultiByte := WideCharToMultiByte e;
  InitializeSecurityContextW := InitializeSecurityContextW e;
  QuerySecurityPackageInfoW := r;
  AcceptSecurityContext := AcceptSecurityContext e;
  QueryContextAttributes_names := QueryContextAttributes_names e;
  QueryContextAttributes_native_names :=
    QueryContextAttributes_native_names e;
  QueryContextAttributes_sizes := QueryContextAttributes_sizes e;
  ImpersonateSecurityContext := ImpersonateSecurityContext e;
  GetUserName_size := GetUserName_size e;
  GetUserName := GetUserName e;
  DecryptMessage := DecryptMessage e;
  EncryptMessage := EncryptMessage e
|}.

Definition SEC_E_SECPKG_NOT_FOUND : SECURITY_STATUS := 0x80090305.

(** A platform that runs out of memory after the first allocation. *)
Definition env_low_memory : Env := with_malloc (fun n => Nat.ltb n 1) env.

(** A platform where the token size query fails. *)
Definition env_no_package : Env :=
  with_package_info (SEC_E_SECPKG_NOT_FOUND, 0) env.

Definition world0 : world := {| w_next := 0; w_trace := [] |}.

(** What a fresh block holds before [sspi_client_state_new] writes to
    it. *)
Definition junk : sspi_client_state := {|
  cl_cred := {| dwLower := 3722304989; dwUpper := 3722304989 |};
  cl_ctx := {| dwLower := 3722304989; dwUpper := 3722304989 |};
  cl_spn := None;
  cl_response := None;
  cl_username := None;
  cl_flags := 3722304989;
  cl_haveCred := 221;
  cl_haveCtx := 221;
  cl_qop := 3722304989;
  cl_responseConf := 3722304989;
  cl_context_complete := 3722304989
|}.

Definition client_init (e : Env) : M sspi_client_state returned :=
  auth_sspi_client_init e service 2 [] 0 [] 0 [] 0 (Some wide_Kerberos).

(** A client session: created and initialised, ... *)
Definition client_ready : sspi_client_state * world :=
  after (client_init env) (sspi_client_state_new junk, world0).

(** ... after the first step, ... *)
Definition client_negotiating : sspi_client_state * world :=
  after (auth_sspi_client_step env None None) client_ready.

(** ... after the step that ends the negotiation, ... *)
Definition client_complete : sspi_client_state * world :=
  after (auth_sspi_client_step env (Some "oRQ=") None) client_negotiating.

(** ... after unwrapping a message without payload, which leaves no
    token behind, ... *)
Definition client_established : sspi_client_state * world :=
  after (auth_sspi_client_unwrap env (Some "YIIA")) client_complete.

(** ... or after unwrapping a message with a payload, whose token is
    then pending. *)
Definition client_pending : sspi_client_state * world :=
  after (auth_sspi_client_unwrap env (Some "YIIAYIIA")) client_complete.

(** The client initialised where memory is low. *)
Definition client_ready_low_memory : sspi_client_state * world :=
  after (client_init env_low_memory) (sspi_client_state_new junk, world0).

(** A server session: created and initialised, ... *)
Definition server_ready : sspi_server_state * world :=
  after (auth_sspi_server_init env []) (sspi_server_state_new, world0).

(** ... after the first step, ... *)
Definition server_negotiating : sspi_server_state * world :=
  after (auth_sspi_server_step env (Some "YIIA")) server_ready.

(** ... and after the step that completes the exchange. *)
Definition server_completed : sspi_server_state * world :=
  after (auth_sspi_server_step env (Some "YIIA")) server_negotiating.

(** The server initialised where the token size query fails. *)
Definition server_ready_no_package : sspi_server_state * world :=
  after (auth_sspi_server_init env_no_package [])
    (sspi_server_state_new, world0).

End Stub.

(** The platform of [Stub] with a provider that refuses every token. *)
Module Refusal.

Definition SEC_E_LOGON_DENIED : SECURITY_STATUS := 0x8009030C.

Definition refused : context_reply :=
  {| rp_status := SEC_E_LOGON_DENIED;
     rp_context := None;
     rp_output := None |}.

Definition env : Env := {|
  malloc_ok := malloc_ok Stub.env;
  stack_garbage := stack_garbage Stub.env;
  FormatMessageA := FormatMessageA Stub.env;
  AcquireCredentialsHandleW := AcquireCredentialsHandleW Stub.env;
  WideCharToMultiByte := WideCharToMultiByte Stub.env;
  InitializeSecurityContextW := fun _ _ _ _ _ _ => refused;
  QuerySecurityPackageInfoW := QuerySecurityPackageInfoW Stub.env;
  AcceptSecurityContext := fun _ _ _ => refused;
  QueryContextAttributes_names := QueryContextAttributes_names Stub.env;
  QueryContextAttributes_native_names :=
    QueryContextAttributes_native_names Stub.env;
  QueryContextAttributes_sizes := QueryContextAttributes_sizes Stub.env;
  ImpersonateSecurityContext := ImpersonateSecurityContext Stub.env;
  GetUserName_size := GetUserName_size Stub.env;
  GetUserName := GetUserName Stub.env;
  DecryptMessage := DecryptMessage Stub.env;
  EncryptMessage := EncryptMessage Stub.env
|}.

End Refusal.

(** The platform of [Stub] where the principal of an accepted context
    cannot be obtained: the names query fails and impersonation is
    refused. *)
Module Nameless.

Definition SEC_E_UNSUPPORTED_FUNCTION : SECURITY_STATUS := 0x80090302.
Definition SEC_E_NO_IMPERSONATION : SECURITY_STATUS := 0x8009030B.

Definition env : Env := {|
  malloc_ok := malloc_ok Stub.env;
  stack_garbage := stack_garbage Stub.env;
  FormatMessageA := FormatMessageA Stub.env;
  AcquireCredentialsHandleW := AcquireCredentialsHandleW Stub.env;
  WideCharToMultiByte := WideCharToMultiByte Stub.env;
  InitializeSecurityContextW := InitializeSecurityContextW Stub.env;
  QuerySecurityPackageInfoW := QuerySecurityPackageInfoW Stub.env;
  AcceptSecurityContext := AcceptSecurityContext Stub.env;
  QueryContextAttributes_names := QueryContextAttributes_names Stub.env;
  QueryContextAttributes_native_names :=
    fun _ => (SEC_E_UNSUPPORTED_FUNCTION, None);
  QueryContextAttributes_sizes := QueryContextAttributes_sizes Stub.env;
  ImpersonateSecurityContext := fun _ => SEC_E_NO_IMPERSONATION;
  GetUserName_size := GetUserName_size Stub.env;
  GetUserName := GetUserName Stub.env;
  DecryptMessage := DecryptMessage Stub.env;
  EncryptMessage := EncryptMessage Stub.env
|}.

End Nameless.

(* ------------------------------------------------------------------ *)
(** * Properties *)

(** ** Symbolic execution of the engine *)

Ltac run :=
  cbv beta iota zeta delta
    [bind ret gets modify emit free FreeContextBuffer free_and_clear malloc
     set_cl_cred set_cl_ctx set_cl_spn set_cl_response set_cl_username
     set_cl_flags set_cl_haveCred set_cl_haveCtx set_cl_qop
     set_cl_context_complete
     set_sv_ctx set_sv_cred set_sv_response set_sv_username
     set_sv_context_complete set_sv_targetname
     cl_cred cl_ctx cl_spn cl_response cl_username cl_flags cl_haveCred
     cl_haveCtx cl_qop cl_responseConf cl_context_complete
     sv_ctx sv_cred sv_response sv_username sv_context_complete
     sv_targetname w_next w_trace SecInvalidateHandle
     rp_status rp_context rp_output option_map fst snd negb andb
     CryptBinaryToStringA memcpy_s client_step_done server_step_end].

(** The term whose value the evaluation of [t] waits for. *)
Ltac scrutinee t :=
  match t with
  | match ?x with _ => _ end => scrutinee x
  | match ?x with _ => _ end => x
  | ?f _ => scrutinee f
  | ?a = _ -> _ => scrutinee a
  | ?a = _ => scrutinee a
  end.

(** One case split on it. *)
Ltac branch :=
  match goal with
  | |- ?G => let x := scrutinee G in destruct x eqn:?
  end.

Lemma invalid_handle_not_valid : SecIsValidHandle invalid_handle = false.
Proof. reflexivity. Qed.

Lemma truthy_0 : truthy 0 = false.
Proof. reflexivity. Qed.

Lemma truthy_1 : truthy 1 = true.
Proof. reflexivity. Qed.

Lemma truthy_FALSE : truthy FALSE = false.
Proof. reflexivity. Qed.

Lemma truthy_TRUE : truthy TRUE = true.
Proof. reflexivity. Qed.

Ltac refold :=
  repeat match goal with
    | |- context [let (_, t) := ?w in t] =>
        change (let (_, t) := w in t) with (w_trace w)
    | |- context [let (n, _) := ?w in n] =>
        change (let (n, _) := w in n) with (w_next w)
    end.

(** What is already known about the platform's answers. *)
Ltac recall :=
  repeat match goal with
    | H : ?l = _ |- _ => rewrite H
    end.

Ltac settle :=
  repeat (progress
            (run;
             rewrite ?truthy_0, ?truthy_1, ?truthy_FALSE, ?truthy_TRUE,
               ?invalid_handle_not_valid, ?Z.eqb_refl;
             recall)).

(** Symbolic execution of a computation, one path per goal. *)
Ltac exec := settle; repeat (branch; settle); refold.

Ltac trace_eq :=
  cbn [w_trace w_next]; rewrite <- ?app_assoc; cbn [app]; reflexivity.

(** Membership in a trace that is written out. *)
Ltac in_events H :=
  repeat (apply in_app_or in H; destruct H as [H|H]);
  repeat (destruct H as [H|H]; [try discriminate H|]); try contradiction.

Lemma events_since_app n n' t evs :
  events_since {| w_next := n; w_trace := t |}
               {| w_next := n'; w_trace := t ++ evs |} = evs.
Proof.
  unfold events_since. cbn [w_trace].
  induction t as [|x l IH]; [reflexivity|exact IH].
Qed.

Lemma events_since_same n n' t :
  events_since {| w_next := n; w_trace := t |}
               {| w_next := n'; w_trace := t |} = [].
Proof.
  unfold events_since. cbn [w_trace].
  induction t as [|x l IH]; [reflexivity|exact IH].
Qed.

(** ** The token codec *)

Module Base64Facts.

Import Base64.
Local Open Scope N_scope.

Lemma sextet_in n : n < 64 -> In n sextets.
Proof.
  intros H. unfold sextets. apply in_map_iff. exists (N.to_nat n). split.
  - apply N2Nat.id.
  - apply in_seq. lia.
Qed.

Lemma value_of_char_of n : n < 64 -> value_of (char_of n) = Some n.
Proof.
  intros H.
  assert (A : forallb (fun k => match value_of (char_of k) with
                                | Some m => m =? k
                                | None => false
                                end) sextets = true)
    by (vm_compute; reflexivity).
  rewrite forallb_forall in A. specialize (A n (sextet_in H)).
  destruct (value_of (char_of n)) as [m|]; [|discriminate].
  apply N.eqb_eq in A. now subst.
Qed.

Lemma char_of_not_special n :
  n < 64 ->
  Ascii.eqb (char_of n) pad = false /\ is_line_break (char_of n) = false.
Proof.
  intros H.
  assert (A : forallb (fun k => negb (Ascii.eqb (char_of k) pad)
                                && negb (is_line_break (char_of k)))
                sextets = true)
    by (vm_compute; reflexivity).
  rewrite forallb_forall in A. specialize (A n (sextet_in H)).
  apply andb_true_iff in A. destruct A as [A B].
  split; now apply negb_true_iff.
Qed.

Lemma to_N_lt b : Byte.to_N b < 256.
Proof. pose proof (Byte.to_N_bounded b). lia. Qed.

Lemma byte_of_to_N b : byte_of (Byte.to_N b) = [b].
Proof. unfold byte_of. now rewrite Byte.of_to_N. Qed.

Ltac euclid := zify; Z.to_euclidean_division_equations; lia.

Lemma encode_nil_iff l : encode l = [] -> l = [].
Proof. destruct l as [|a [|b [|c r]]]; simpl; congruence. Qed.

Lemma decode_encode_bounded n :
  forall l, (List.length l <= n)%nat -> decode (encode l) = Some l.
Proof.
  induction n as [n IH] using lt_wf_ind. intros l Hl.
  destruct l as [|a [|b [|c r]]].
  - reflexivity.
  - pose proof (to_N_lt a) as Ha.
    cbn [encode decode]; unfold decode_last.
    rewrite !value_of_char_of by euclid.
    rewrite Ascii.eqb_refl.
    replace ((Byte.to_N a mod 4 * 16) mod 16 =? 0) with true
      by (symmetry; apply N.eqb_eq; euclid).
    unfold octet1.
    replace (Byte.to_N a / 4 * 4 + Byte.to_N a mod 4 * 16 / 16)
      with (Byte.to_N a) by euclid.
    now rewrite byte_of_to_N.
  - pose proof (to_N_lt a) as Ha. pose proof (to_N_lt b) as Hb.
    cbn [encode decode]; unfold decode_last.
    rewrite !value_of_char_of by euclid.
    rewrite Ascii.eqb_refl.
    rewrite (proj1 (@char_of_not_special (Byte.to_N b mod 16 * 4)
                      ltac:(euclid))).
    replace ((Byte.to_N b mod 16 * 4) mod 4 =? 0) with true
      by (symmetry; apply N.eqb_eq; euclid).
    unfold octet1, octet2.
    replace (_ + _ / 16) with (Byte.to_N a) by euclid.
    replace (_ * 16 + _ / 4) with (Byte.to_N b) by euclid.
    now rewrite !byte_of_to_N.
  - pose proof (to_N_lt a) as Ha. pose proof (to_N_lt b) as Hb.
    pose proof (to_N_lt c) as Hc.
    assert (O1 : octet1 (Byte.to_N a / 4)
                   (Byte.to_N a mod 4 * 16 + Byte.to_N b / 16)
                 = Byte.to_N a) by (unfold octet1; euclid).
    assert (O2 : octet2 (Byte.to_N a mod 4 * 16 + Byte.to_N b / 16)
                   (Byte.to_N b mod 16 * 4 + Byte.to_N c / 64)
                 = Byte.to_N b) by (unfold octet2; euclid).
    assert (O3 : octet3 (Byte.to_N b mod 16 * 4 + Byte.to_N c / 64)
                   (Byte.to_N c mod 64)
                 = Byte.to_N c) by (unfold octet3; euclid).
    cbn [encode decode].
    destruct (encode r) as [|k ks] eqn:Er.
    + apply encode_nil_iff in Er. subst r.
      unfold decode_last.
      rewrite !value_of_char_of by euclid.
      rewrite (proj1 (@char_of_not_special (Byte.to_N c mod 64)
                        ltac:(euclid))).
      rewrite O1, O2, O3. now rewrite !byte_of_to_N.
    + rewrite !value_of_char_of by euclid.
      rewrite <- Er.
      rewrite (IH (List.length r)) by (simpl in Hl; lia).
      rewrite O1, O2, O3. now rewrite !byte_of_to_N.
Qed.

Lemma decode_encode l : decode (encode l) = Some l.
Proof. exact (@decode_encode_bounded (List.length l) l (le_n _)). Qed.

Lemma encode_no_line_break_bounded n :
  forall l, (List.length l <= n)%nat ->
  forallb (fun c => negb (is_line_break c)) (encode l) = true.
Proof.
  induction n as [n IH] using lt_wf_ind. intros l Hl.
  destruct l as [|a [|b [|c r]]]; [reflexivity| | |];
    pose proof (to_N_lt a) as Ha;
    try pose proof (to_N_lt b) as Hb; try pose proof (to_N_lt c) as Hc;
    cbn [encode forallb];
    repeat match goal with
      | |- context [is_line_break (char_of ?k)] =>
          rewrite (proj2 (@char_of_not_special k ltac:(euclid)))
      end;
    cbn [negb andb]; try reflexivity.
  apply (IH (List.length r)); simpl in Hl; lia.
Qed.

Lemma encode_no_line_break l :
  forallb (fun c => negb (is_line_break c)) (encode l) = true.
Proof. exact (@encode_no_line_break_bounded (List.length l) l (le_n _)). Qed.

End Base64Facts.

Example encode_Man :
  CryptBinaryToStringA (list_byte_of_string "Man is"%string)
  = Some "TWFuIGlz"%string.
Proof. reflexivity. Qed.

Example encode_padding :
  CryptBinaryToStringA [x00] = Some "AA=="%string /\
  CryptBinaryToStringA [x00; xff] = Some "AP8="%string /\
  CryptBinaryToStringA [] = Some ""%string.
Proof. repeat split. Qed.

Example decode_padding :
  CryptStringToBinaryA (Some "AA=="%string) = Some [x00] /\
  CryptStringToBinaryA (Some "AP8="%string) = Some [x00; xff] /\
  CryptStringToBinaryA (Some ""%string) = Some [].
Proof. repeat split. Qed.

Example decode_malformed :
  CryptStringToBinaryA (Some "not-valid-encoding!!"%string) = None /\
  CryptStringToBinaryA (Some "TWFu IGlz"%string) = None /\
  CryptStringToBinaryA None = None.
Proof. repeat split. Qed.

Lemma codec_round_trip b :
  CryptStringToBinaryA
    (Some (string_of_list_ascii (Base64.encode b))) = Some b.
Proof.
  unfold CryptStringToBinaryA.
  rewrite list_ascii_of_string_of_list_ascii.
  apply Base64Facts.decode_encode.
Qed.

(** C7. Whenever its two buffers can be allocated, encoding any byte
    sequence [b] (the empty one and those holding zero bytes included)
    yields a text without line breaks, and decoding that text yields
    [b] again. *)
Theorem base64_round_trip
    E (St : Type) (b : list byte) (s : St) (w : world) :
  malloc_ok E (w_next w) = true ->
  malloc_ok E (S (w_next w)) = true ->
  let '(encoded, s1, w1) := base64_encode E b s w in
  exists text,
    option_map (@data _) encoded = Some text /\
    forallb (fun c => negb (Base64.is_line_break c))
      (list_ascii_of_string text) = true /\
    let '(decoded, _, _) := base64_decode E (Some text) s1 w1 in
    option_map (@data _) decoded = Some b.
Proof.
  intros H1 H2. destruct w as [next trace]. cbn [w_next] in *.
  unfold base64_encode. run. rewrite H1. run. cbn [data].
  eexists. split; [reflexivity|]. split.
  - rewrite list_ascii_of_string_of_list_ascii.
    apply Base64Facts.encode_no_line_break.
  - unfold base64_decode. run.
    rewrite codec_round_trip, H2. run. reflexivity.
Qed.

Lemma base64_round_trip_witness :
  let '(encoded, s1, w1) :=
    base64_encode Stub.env [x00; xff; x10; x00] tt Stub.world0 in
  exists text,
    option_map (@data _) encoded = Some text /\
    forallb (fun c => negb (Base64.is_line_break c))
      (list_ascii_of_string text) = true /\
    let '(decoded, _, _) := base64_decode Stub.env (Some text) s1 w1 in
    option_map (@data _) decoded = Some [x00; xff; x10; x00].
Proof.
  apply (@base64_round_trip Stub.env unit [x00; xff; x10; x00] tt
           Stub.world0); reflexivity.
Defined.

(** ** Release *)

(** C8. Releasing a client or a server context a second time changes
    neither the context nor the world: the state equals the one after
    the first release, and no handle or buffer is released again (no
    event is added to the trace). *)
Theorem release_is_idempotent :
  (forall st w,
      let '(_, st1, w1) := auth_sspi_client_clean st w in
      auth_sspi_client_clean st1 w1 = (tt, st1, w1)) /\
  (forall st w,
      let '(_, st1, w1) := auth_sspi_server_clean st w in
      auth_sspi_server_clean st1 w1 = (tt, st1, w1)).
Proof.
  split; intros st w; destruct w as [next trace].
  - destruct st as [cred ctx spn response username flags haveCred haveCtx
                      qop conf complete].
    unfold auth_sspi_client_clean.
    exec; try reflexivity; congruence.
  - destruct st as [ctx cred response username complete targetname].
    unfold auth_sspi_server_clean.
    exec; try reflexivity; congruence.
Qed.

(** ** The client step *)

(** Whatever the platform answers, a client step that hands back
    [Continue] leaves the context marked complete. *)
Lemma client_step_continue_always_complete E ch b st w r st' w' :
  auth_sspi_client_step E ch b st w = (r, st', w') ->
  tag r = Some Continue ->
  cl_context_complete st' = TRUE.
Proof.
  destruct st as [cred ctx spn response username flags haveCred haveCtx
                    qop conf complete].
  destruct w as [next trace].
  unfold auth_sspi_client_step, client_step_negotiate, base64_decode,
    base64_encode, wide_to_utf8.
  exec; intros H T; inversion H; subst; clear H;
    try discriminate T; try reflexivity.
Qed.

(** C1. On a freshly initialised client context the provider answers
    the first step with continue-needed; the step returns [Continue]
    and the context's complete flag is set all the same, where the
    design keeps it false until the terminal success. *)
Theorem client_step_continue_marks_complete :
  let '(st0, w0) := Stub.client_ready in
  let '(r, st, _) := auth_sspi_client_step Stub.env None None st0 w0 in
  rp_status
    (InitializeSecurityContextW Stub.env (cl_cred st0) None
       (option_map (@data _) (cl_spn st0))
       (Z.lor ISC_REQ_ALLOCATE_MEMORY (cl_flags st0)) None None)
  = SEC_I_CONTINUE_NEEDED /\
  cl_context_complete st0 = FALSE /\
  tag r = Some Continue /\
  cl_context_complete st = TRUE /\
  cl_context_complete st <> FALSE.
Proof. vm_compute. repeat split; discriminate. Qed.

(** Every exit of the client step hands back an assigned result with
    one of the three tags, except the exit taken when the provider's
    output token cannot be encoded. *)
Lemma client_step_result_cases E ch bindings st w :
  let '(r, st', _) := auth_sspi_client_step E ch bindings st w in
  match r with
  | Returned x => outcome_of x <> None
  | NullResult => False
  | Indeterminate =>
      cl_response st' = None /\ cl_context_complete st' = TRUE
  end.
Proof.
  destruct st as [cred ctx spn response username flags haveCred haveCtx
                    qop conf complete].
  destruct w as [next trace].
  unfold auth_sspi_client_step, client_step_negotiate, base64_decode,
    base64_encode, wide_to_utf8.
  exec; try (split; reflexivity); discriminate.
Qed.

(** C4. When the provider hands back an output token and the buffer
    for its encoding cannot be allocated, the client step leaves
    through the label [done] without having assigned its result: what
    it returns is indeterminate and carries none of the three tags. *)
Theorem client_step_encode_failure_is_indeterminate :
  let '(st0, w0) := Stub.client_ready_low_memory in
  let '(r, st, w) :=
    auth_sspi_client_step Stub.env_low_memory None None st0 w0 in
  r = Indeterminate /\
  tag r = None /\
  cl_response st = None /\
  events_since w0 w
  = [EvInitializeSecurityContext Stub.credential1 None None;
     EvCryptBinaryToString [x60; x82; x00];
     EvFreeContextBuffer 900].
Proof. vm_compute. repeat split. Qed.



(** ** Unwrap *)

(** C3 as stated fails: on an established client context that holds no
    pending token and whose protection level is not the default (as an
    unwrap of an encrypted message without payload leaves it), the
    provider's unprotect call is made with the protection level left
    as it was. *)
Theorem unwrap_without_pending_token_keeps_qop :
  let '(st0, w0) := Stub.client_established in
  let '(_, _, w) :=
    auth_sspi_client_unwrap Stub.env (Some "YIIA"%string) st0 w0 in
  truthy (cl_haveCtx st0) = true /\
  cl_response st0 = None /\
  cl_qop st0 <> SECQOP_WRAP_NO_ENCRYPT /\
  existsb (fun e => match e with
                    | EvDecryptMessage _ _ q =>
                        negb (q =? SECQOP_WRAP_NO_ENCRYPT)
                    | _ => false
                    end) (events_since w0 w) = true.
Proof. vm_compute. repeat split. discriminate. Qed.

(** C3, amended. On an established client context, an unwrap whose
    input decodes reaches the provider's unprotect call, no other
    provider call comes before it, and at that call the protection
    level is the no-encryption default if a previous outbound token was
    pending, and the value the context already had otherwise. *)
Theorem unwrap_qop_at_unprotect E st ch w bytes :
  truthy (cl_haveCtx st) = true ->
  CryptStringToBinaryA ch = Some bytes ->
  malloc_ok E (w_next w) = true ->
  let '(_, _, w') := auth_sspi_client_unwrap E ch st w in
  exists pre post,
    events_since w w'
    = pre ++ EvDecryptMessage (cl_ctx st) bytes
               (match cl_response st with
                | Some _ => SECQOP_WRAP_NO_ENCRYPT
                | None => cl_qop st
                end) :: post
    /\ forallb (fun e => negb (is_provider_call e)) pre = true.
Proof.
  intros Hc Hd Hm.
  destruct st as [cred ctx spn response username flags haveCred haveCtx
                    qop conf complete].
  destruct w as [next trace].
  cbn [cl_haveCtx cl_ctx cl_response cl_qop w_next] in *.
  unfold auth_sspi_client_unwrap, base64_decode, base64_encode.
  exec.
  all: rewrite <- ?app_assoc; cbn [app]; rewrite ?events_since_app.
  all: match goal with
       | |- exists pre post,
              ?x :: ?y :: ?z :: EvDecryptMessage _ _ _ :: _ = _ /\ _ =>
           exists [x; y; z]
       | |- exists pre post,
              ?x :: ?y :: ?z :: ?t :: EvDecryptMessage _ _ _ :: _ = _ /\ _ =>
           exists [x; y; z; t]
       end; eexists; split; reflexivity.
Qed.

Lemma unwrap_qop_at_unprotect_witness :
  cl_qop (fst Stub.client_pending) = 0 /\
  let '(_, _, w') :=
    auth_sspi_client_unwrap Stub.env (Some "YIIA"%string)
      (fst Stub.client_pending) (snd Stub.client_pending) in
  exists pre post,
    events_since (snd Stub.client_pending) w'
    = pre ++ EvDecryptMessage (cl_ctx (fst Stub.client_pending))
               [x60; x82; x00]
               (match cl_response (fst Stub.client_pending) with
                | Some _ => SECQOP_WRAP_NO_ENCRYPT
                | None => cl_qop (fst Stub.client_pending)
                end) :: post
    /\ forallb (fun e => negb (is_provider_call e)) pre = true.
Proof.
  split; [reflexivity|].
  apply (@unwrap_qop_at_unprotect Stub.env (fst Stub.client_pending)
           (Some "YIIA"%string) (snd Stub.client_pending) [x60; x82; x00]);
    reflexivity.
Defined.

(** ** The server step *)

(** C2 as stated fails: on a server context whose exchange has
    completed, a step without challenge releases the security context
    through the provider before it reports the missing challenge. *)
Theorem server_step_null_challenge_reaches_provider :
  let '(st0, w0) := Stub.server_completed in
  let '(r, _, w) := auth_sspi_server_step Stub.env None st0 w0 in
  tag r = Some Error /\
  filter is_provider_call (events_since w0 w)
  = [EvDeleteSecurityContext Stub.context1].
Proof. vm_compute. split; reflexivity. Qed.

(** C2, amended. A server step whose challenge is null or empty
    returns the missing-challenge error; it makes no credential,
    sizing, accept, name or impersonation call, and the only provider
    call on that path is the release of the previous security context,
    made exactly when the context was complete with a valid handle. *)
Theorem server_step_missing_challenge E st ch w :
  ch = None \/ ch = Some ""%string ->
  exists st' w',
    auth_sspi_server_step E ch st w
    = (Returned (sspi_error_result_with_message
                   "No challenge parameter in request from client"), st', w')
    /\ filter is_provider_call (events_since w w')
       = (if truthy (sv_context_complete st) && SecIsValidHandle (sv_ctx st)
          then [EvDeleteSecurityContext (sv_ctx st)] else []).
Proof.
  intros Hch.
  destruct st as [ctx cred response username complete targetname].
  destruct w as [next trace].
  unfold auth_sspi_server_step.
  assert (Hc : match ch with
               | Some s => c_nonempty s
               | None => false
               end = false)
    by (destruct Hch; subst; reflexivity).
  rewrite Hc. clear Hc Hch.
  match goal with
  | |- exists st' w', ?c = _ /\ _ =>
      destruct c as [[r st'] w'] eqn:H; revert H
  end.
  exec; intros H; inversion H; subst; clear H;
    do 2 eexists; (split; [reflexivity|]);
    rewrite <- ?app_assoc;
    rewrite ?events_since_app, ?events_since_same; reflexivity.
Qed.

Lemma server_step_missing_challenge_witness :
  exists st' w',
    auth_sspi_server_step Stub.env (Some ""%string)
      (fst Stub.server_negotiating) (snd Stub.server_negotiating)
    = (Returned (sspi_error_result_with_message
                   "No challenge parameter in request from client"), st', w')
    /\ filter is_provider_call (events_since (snd Stub.server_negotiating) w')
       = [].
Proof.
  apply (@server_step_missing_challenge Stub.env
           (fst Stub.server_negotiating) (Some ""%string)
           (snd Stub.server_negotiating)).
  right. reflexivity.
Defined.

Lemma eqb_succ_l n : Nat.eqb (S n) n = false.
Proof. apply Nat.eqb_neq. lia. Qed.

Lemma eqb_succ_r n : Nat.eqb n (S n) = false.
Proof. apply Nat.eqb_neq. lia. Qed.

Lemma eqb_succ2_l n : Nat.eqb (S (S n)) n = false.
Proof. apply Nat.eqb_neq. lia. Qed.

Lemma eqb_succ2_r n : Nat.eqb n (S (S n)) = false.
Proof. apply Nat.eqb_neq. lia. Qed.

(** Where the token size query succeeds, the accept phase releases the
    decoded challenge once, releases the output buffer once when it was
    obtained, and releases nothing else that it did not allocate. *)
Lemma server_step_accept_releases E b st w :
  fst (QuerySecurityPackageInfoW E) = SEC_E_OK ->
  (addr b < w_next w)%nat ->
  let '(_, _, w') := server_step_accept E b st w in
  let evs := events_since w w' in
  frees (addr b) evs = 1%nat /\
  (malloc_ok E (w_next w) = true -> frees (w_next w) evs = 1%nat) /\
  forall a, (0 < frees a evs)%nat -> a = addr b \/ allocated a evs = true.
Proof.
  intros Hq Hb.
  destruct st as [ctx cred response username complete targetname].
  destruct w as [next trace]. destruct b as [ab db].
  cbn [addr w_next] in *.
  assert (N1 : Nat.eqb next ab = false) by (apply Nat.eqb_neq; lia).
  assert (N2 : Nat.eqb (S next) ab = false) by (apply Nat.eqb_neq; lia).
  assert (N3 : Nat.eqb (S (S next)) ab = false) by (apply Nat.eqb_neq; lia).
  assert (N4 : Nat.eqb ab next = false) by (apply Nat.eqb_neq; lia).
  destruct (QuerySecurityPackageInfoW E) as [qs cb] eqn:HQ.
  cbn [fst] in Hq. subst qs.
  unfold server_step_accept, base64_encode, wide_to_utf8.
  exec.
  all: rewrite <- ?app_assoc; cbn [app];
    rewrite ?events_since_app, ?events_since_same.
  all: unfold frees, allocated; cbn [filter existsb List.length addr];
    rewrite ?Nat.eqb_refl, ?N1, ?N2, ?N3, ?N4, ?eqb_succ_l, ?eqb_succ_r,
      ?eqb_succ2_l, ?eqb_succ2_r;
    cbn [filter existsb List.length orb].
  all: split;
    [reflexivity
    |split; [intros Hm; try reflexivity; try discriminate Hm|]].
  all: intros a Ha;
    destruct (Nat.eqb ab a) eqn:E1; [left; symmetry; now apply Nat.eqb_eq|];
    destruct (Nat.eqb next a) eqn:E2; [right; now rewrite ?orb_true_r|];
    try (destruct (Nat.eqb (S next) a) eqn:E3;
         [right; now rewrite ?orb_true_r|]);
    cbn [List.length] in Ha; exfalso; lia.
Qed.

(** C5. When the query for the maximum token size fails, the server
    step reaches its label [end] before the output buffer pointer was
    ever written; the stale address found there is released although
    no allocation of this call produced it. *)
Theorem server_step_sizing_failure_frees_unallocated :
  let '(st0, w0) := Stub.server_ready_no_package in
  let '(r, _, w) :=
    auth_sspi_server_step Stub.env_no_package (Some "YIIA"%string) st0 w0 in
  tag r = Some Error /\
  stack_garbage Stub.env_no_package = Some 4096%nat /\
  events_since w0 w
  = [EvCryptStringToBinary (Some "YIIA"%string); EvMalloc 0;
     EvCryptStringToBinary (Some "YIIA"%string);
     EvQuerySecurityPackageInfo; EvFree 0; EvFree 4096] /\
  frees 4096 (w_trace w) = 1%nat /\
  allocated 4096 (w_trace w) = false.
Proof. vm_compute. repeat split. Qed.

(** The accept phase hands the provider the security context the
    server context holds, or none when it holds none. *)
Lemma server_step_accept_trace E b st w r st' w' :
  server_step_accept E b st w = (r, st', w') ->
  exists evs,
    w_trace w' = w_trace w ++ evs /\
    forall cred ctx_in token,
      In (EvAcceptSecurityContext cred ctx_in token) evs ->
      ctx_in = if SecIsValidHandle (sv_ctx st) then Some (sv_ctx st) else None.
Proof.
  destruct st as [ctx cred response username complete targetname].
  destruct w as [next trace].
  unfold server_step_accept, base64_encode, wide_to_utf8.
  exec; intros H; inversion H; subst; clear H;
    (eexists; split; [trace_eq|]);
    intros c0 ci tok HIn; in_events HIn;
    try (inversion HIn; reflexivity).
Qed.

(** C6. A step with a non-empty challenge on a server context whose
    complete flag is set first discards the security context (if one
    is held) and releases the stored principal, clearing the flag; it
    then runs exactly as a step on the context so reset would, so that
    every later call comes after those releases in the trace and the
    provider's accept call is given no previous security context. *)
Theorem server_step_resets_completed_context E st ch w :
  truthy (sv_context_complete st) = true ->
  (exists s, ch = Some s /\ c_nonempty s = true) ->
  let st0 := server_begin_request st in
  let w0 := {| w_next := w_next w;
               w_trace := w_trace w ++ server_release_events st |} in
  SecIsValidHandle (sv_ctx st0) = false /\
  sv_username st0 = None /\
  sv_context_complete st0 = FALSE /\
  (SecIsValidHandle (sv_ctx st) = true ->
   In (EvDeleteSecurityContext (sv_ctx st)) (server_release_events st)) /\
  forallb (fun e => match e with
                    | EvDeleteSecurityContext _ | EvFree _ => true
                    | _ => false
                    end) (server_release_events st) = true /\
  auth_sspi_server_step E ch st w = auth_sspi_server_step E ch st0 w0 /\
  forall r st' w',
    auth_sspi_server_step E ch st w = (r, st', w') ->
    exists evs,
      w_trace w' = w_trace w0 ++ evs /\
      forall cred ctx_in token,
        In (EvAcceptSecurityContext cred ctx_in token) evs -> ctx_in = None.
Proof.
  intros Hc [s [-> Hs]].
  destruct st as [ctx cred response username complete targetname].
  destruct w as [next trace].
  unfold server_begin_request, server_release_events.
  cbn [sv_context_complete sv_ctx sv_username] in *.
  cbn [w_next w_trace].
  assert (Heq :
    auth_sspi_server_step E (Some s)
      {| sv_ctx := ctx; sv_cred := cred; sv_response := response;
         sv_username := username; sv_context_complete := complete;
         sv_targetname := targetname |}
      {| w_next := next; w_trace := trace |}
    = auth_sspi_server_step E (Some s)
        (set_sv_context_complete FALSE
           (set_sv_username None
              (if SecIsValidHandle ctx
               then set_sv_ctx invalid_handle
                      {| sv_ctx := ctx; sv_cred := cred;
                         sv_response := response; sv_username := username;
                         sv_context_complete := complete;
                         sv_targetname := targetname |}
               else {| sv_ctx := ctx; sv_cred := cred;
                       sv_response := response; sv_username := username;
                       sv_context_complete := complete;
                       sv_targetname := targetname |})))
        {| w_next := next;
           w_trace := trace ++
             (if SecIsValidHandle ctx
              then [EvDeleteSecurityContext ctx] else [])
             ++ match username with
                | Some b => [EvFree (addr b)]
                | None => []
                end |}).
  { unfold auth_sspi_server_step at 1.
    run. rewrite Hc.
    destruct (SecIsValidHandle ctx) eqn:Hv; destruct username as [u|];
      unfold auth_sspi_server_step; run;
      change (truthy FALSE) with false; cbv iota;
      rewrite <- ?app_assoc, ?app_nil_r; reflexivity. }
  cbv zeta. split; [|split; [|split; [|split; [|split; [|split]]]]].
  - destruct (SecIsValidHandle ctx) eqn:Hv; [reflexivity|exact Hv].
  - destruct (SecIsValidHandle ctx); reflexivity.
  - destruct (SecIsValidHandle ctx); reflexivity.
  - intros ->. cbn. left. reflexivity.
  - destruct (SecIsValidHandle ctx); destruct username; reflexivity.
  - exact Heq.
  - intros r st' w'. rewrite Heq. clear Heq.
    unfold auth_sspi_server_step, base64_decode.
    rewrite Hs.
    destruct (SecIsValidHandle ctx) eqn:Hv; destruct username as [u|];
      exec; intros H;
      try (apply server_step_accept_trace in H;
           cbn [sv_ctx w_trace] in H;
           rewrite ?invalid_handle_not_valid, ?Hv in H;
           destruct H as [evs [-> H]];
           eexists; split; [trace_eq|];
           intros c0 ci tok HIn; in_events HIn; eauto);
      try (inversion H; subst; clear H;
           (eexists; split; [trace_eq|]);
           intros c0 ci tok HIn; in_events HIn).
Qed.

Lemma server_step_resets_completed_context_witness :
  server_release_events (fst Stub.server_completed)
  = [EvDeleteSecurityContext Stub.context1; EvFree 5] /\
  auth_sspi_server_step Stub.env (Some "YIIA"%string)
    (fst Stub.server_completed) (snd Stub.server_completed)
  = auth_sspi_server_step Stub.env (Some "YIIA"%string)
      (server_begin_request (fst Stub.server_completed))
      {| w_next := w_next (snd Stub.server_completed);
         w_trace := w_trace (snd Stub.server_completed)
                    ++ server_release_events (fst Stub.server_completed) |}.
Proof.
  split; [reflexivity|].
  apply (@server_step_resets_completed_context Stub.env
           (fst Stub.server_completed) (Some "YIIA"%string)
           (snd Stub.server_completed)).
  - reflexivity.
  - exists "YIIA"%string. split; reflexivity.
Defined.

(** ** Wrap *)

Lemma store_at_0 : forall bytes a,
  (List.length bytes <= List.length a)%nat ->
  store a 0 bytes = map Some bytes ++ skipn (List.length bytes) a.
Proof.
  induction bytes as [|b bs IH]; intros a Hl.
  - destruct a; reflexivity.
  - destruct a as [|x r]; [cbn in Hl; lia|].
    cbn [store map app List.length skipn]. f_equal. apply IH.
    cbn in Hl. lia.
Qed.

Lemma store_after : forall pre a bytes n,
  n = List.length pre ->
  store (pre ++ a) n bytes = pre ++ store a 0 bytes.
Proof.
  induction pre as [|x r IH]; intros a bytes n ->; [reflexivity|].
  cbn [app List.length store]. f_equal. now apply IH.
Qed.


Lemma skipn_repeat {A} (x : A) n m : skipn n (repeat x m) = repeat x (m - n).
Proof.
  revert m. induction n as [|n IH]; intros m.
  - now rewrite Nat.sub_0_r.
  - destruct m; [reflexivity|]. cbn. apply IH.
Qed.






(** ** The sessions of the stub *)

(** Client: initialisation acquires the credential; the first step
    asks for another round and leaves a token; the second completes
    and names the principal. *)
Example client_session :
  let '(r0, st0, w0) :=
    Stub.client_init Stub.env (sspi_client_state_new Stub.junk)
      Stub.world0 in
  let '(r1, st1, w1) := auth_sspi_client_step Stub.env None None st0 w0 in
  let '(r2, st2, _) :=
    auth_sspi_client_step Stub.env (Some "oRQ="%string) None st1 w1 in
  (tag r0 = Some Complete /\ truthy (cl_haveCred st0) = true) /\
  (tag r1 = Some Continue /\
   option_map (@data _) (cl_response st1) = Some "YIIA"%string) /\
  (tag r2 = Some Complete /\
   option_map (@data _) (cl_username st2) = Some "alice"%string).
Proof. vm_compute. repeat split. Qed.

(** Server: the same in two steps, and a third request on the same
    object starts a fresh exchange. *)
Example server_session :
  let '(r0, st0, w0) :=
    auth_sspi_server_init Stub.env [] sspi_server_state_new Stub.world0 in
  let '(r1, st1, w1) :=
    auth_sspi_server_step Stub.env (Some "YIIA"%string) st0 w0 in
  let '(r2, st2, w2) :=
    auth_sspi_server_step Stub.env (Some "YIIA"%string) st1 w1 in
  let '(r3, st3, _) :=
    auth_sspi_server_step Stub.env (Some "YIIA"%string) st2 w2 in
  tag r0 = Some Complete /\
  (tag r1 = Some Continue /\
   option_map (@data _) (sv_response st1) = Some "oRQ="%string) /\
  (tag r2 = Some Complete /\
   option_map (@data _) (sv_username st2) = Some "alice"%string) /\
  (tag r3 = Some Continue /\ sv_username st3 = None /\
   sv_context_complete st3 = FALSE).
Proof. vm_compute. repeat split. Qed.

(** Wrap and unwrap on a client without security context are refused,
    whatever the input. *)
Lemma wrap_unwrap_need_context E st w data_arg user ulen protect ch :
  truthy (cl_haveCtx st) = false ->
  fst (fst (auth_sspi_client_wrap E data_arg user ulen protect st w))
  = Returned (sspi_error_result_with_message uninitialized_context_message)
  /\
  fst (fst (auth_sspi_client_unwrap E ch st w))
  = Returned (sspi_error_result_with_message uninitialized_context_message).
Proof.
  intros Hc.
  destruct st as [cred ctx spn response username flags haveCred haveCtx
                    qop conf complete].
  destruct w as [next trace]. cbn [cl_haveCtx] in Hc.
  unfold auth_sspi_client_wrap, auth_sspi_client_unwrap.
  split; destruct response; run; rewrite Hc; reflexivity.
Qed.

(* ------------------------------------------------------------------ *)
(** * Outcomes, buffers and releases, function by function *)

(** ** Initialisation *)

(** Comparisons of status codes, as equations. *)
Ltac status_facts :=
  repeat match goal with
    | H : (_ =? _) = true |- _ => apply Z.eqb_eq in H
    | H : (_ =? _) = false |- _ => apply Z.eqb_neq in H
    end.

(** X1. Whatever the context held, client initialisation leaves it
    without pending token, principal or security context, at the
    no-encryption protection level and with the flags given. It either
    succeeds, with the credential marked as held and the service name
    stored, or fails, with the credential marked as not held. It
    releases nothing: what the context held before is overwritten, not
    freed. *)
Theorem client_init_outcome
    E service flags user ulen domain dlen password plen mech st w :
  let '(r, st', w') :=
    auth_sspi_client_init E service flags user ulen domain dlen
      password plen mech st w in
  (cl_response st' = None /\ cl_username st' = None /\
   cl_haveCtx st' = 0 /\ cl_qop st' = SECQOP_WRAP_NO_ENCRYPT /\
   cl_flags st' = flags) /\
  ((tag r = Some Complete /\ cl_haveCred st' = 1 /\
    option_map (@data _) (cl_spn st') = Some service)
   \/ (tag r = Some Error /\ cl_haveCred st' = 0)) /\
  forallb (fun e => negb (is_release e)) (events_since w w') = true.
Proof.
  destruct st as [cred ctx spn response username fl haveCred haveCtx
                    qop conf complete].
  destruct w as [next trace].
  unfold auth_sspi_client_init.
  exec.
  all: rewrite <- ?app_assoc; cbn [app];
    rewrite ?events_since_app, ?events_since_same.
  all: split; [repeat split|split; [|reflexivity]].
  all: first [left; repeat split; reflexivity | right; split; reflexivity].
Qed.

(** X2. When no user name is given and the service name can be
    stored, client initialisation passes no identity to the provider,
    succeeds exactly when the provider's acquire call does, stores the
    handle that call returns, and ignores the user length, the domain
    and the password altogether. *)
Theorem client_init_default_identity
    E service flags user ulen domain dlen password plen mech st w :
  w_nonempty user = false ->
  malloc_ok E (w_next w) = true ->
  let '(r, st', _) :=
    auth_sspi_client_init E service flags user ulen domain dlen
      password plen mech st w in
  let '(status, handle) :=
    AcquireCredentialsHandleW E mech SECPKG_CRED_OUTBOUND None in
  (tag r = Some Complete <-> status = SEC_E_OK) /\
  (forall h, handle = Some h -> cl_cred st' = h) /\
  forall ulen' domain' dlen' password' plen',
    auth_sspi_client_init E service flags user ulen' domain' dlen'
      password' plen' mech st w
    = auth_sspi_client_init E service flags user ulen domain dlen
        password plen mech st w.
Proof.
  intros Hu Hm.
  assert (Hind : forall ulen' domain' dlen' password' plen',
    auth_sspi_client_init E service flags user ulen' domain' dlen'
      password' plen' mech st w
    = auth_sspi_client_init E service flags user ulen domain dlen
        password plen mech st w).
  { intros. unfold auth_sspi_client_init. rewrite Hu. reflexivity. }
  revert Hind.
  destruct st as [cred ctx spn response username fl haveCred haveCtx
                    qop conf complete].
  destruct w as [next trace]. cbn [w_next] in Hm.
  intros Hind.
  unfold auth_sspi_client_init at 1. rewrite Hu.
  exec.
  all: status_facts.
  all: split; [split; intros H; try reflexivity; try discriminate H;
               congruence|].
  all: split; [intros h Hh; inversion Hh; reflexivity|exact Hind].
Qed.

Lemma client_init_default_identity_witness :
  w_nonempty [] = false /\
  let '(r, st', _) :=
    auth_sspi_client_init Stub.env Stub.service 2 [] 0 [100] 1 [112] 1
      (Some Stub.wide_Kerberos) (sspi_client_state_new Stub.junk)
      Stub.world0 in
  tag r = Some Complete /\ cl_cred st' = Stub.credential1.
Proof.
  split; [reflexivity|].
  pose proof (@client_init_default_identity Stub.env Stub.service 2 [] 0
                [100] 1 [112] 1 (Some Stub.wide_Kerberos)
                (sspi_client_state_new Stub.junk) Stub.world0
                eq_refl eq_refl) as H.
  destruct (auth_sspi_client_init Stub.env Stub.service 2 [] 0 [100] 1
              [112] 1 (Some Stub.wide_Kerberos)
              (sspi_client_state_new Stub.junk) Stub.world0)
    as [[r st'] w'].
  cbn in H. destruct H as [H1 [H2 _]].
  split; [apply H1; reflexivity|apply H2; reflexivity].
Defined.

(** X3. Server initialisation releases everything the context
    holds, then acquires an inbound credential for the Negotiate
    package, and does nothing else. It succeeds exactly when the acquire
    call does and fails otherwise. Afterwards the context has no
    security context, token, principal or target name, its completion
    flag is what it was, and its credential is the handle the provider
    wrote, or the released one when it wrote none. *)
Theorem server_init_outcome E service st w :
  let '(r, st', w') := auth_sspi_server_init E service st w in
  let '(status, handle) :=
    AcquireCredentialsHandleW E (Some wide_Negotiate) SECPKG_CRED_INBOUND
      None in
  (SecIsValidHandle (sv_ctx st') = false /\ sv_response st' = None /\
   sv_username st' = None /\ sv_targetname st' = None /\
   sv_context_complete st' = sv_context_complete st) /\
  (tag r = Some Complete <-> status = SEC_E_OK) /\
  (tag r = Some Complete \/ tag r = Some Error) /\
  sv_cred st' = match handle with
                | Some h => h
                | None => if SecIsValidHandle (sv_cred st)
                          then invalid_handle else sv_cred st
                end /\
  events_since w w'
  = server_clean_events st
    ++ [EvAcquireCredentialsHandle wide_Negotiate SECPKG_CRED_INBOUND].
Proof.
  destruct st as [ctx cred response username complete targetname].
  destruct w as [next trace].
  unfold auth_sspi_server_init, auth_sspi_server_clean, server_clean_events.
  cbn [sv_ctx sv_cred sv_response sv_username sv_targetname
       sv_context_complete held].
  exec.
  all: rewrite <- ?app_assoc; cbn [app map];
    rewrite ?events_since_app, ?events_since_same.
  all: repeat match goal with
         | H : SecIsValidHandle _ = _ |- _ => rewrite ?H; clear H
         end.
  all: status_facts.
  all: split; [repeat split; try assumption|].
  all: split; [split; intros H; try reflexivity; try discriminate H;
               congruence|].
  all: split; [first [left; reflexivity|right; reflexivity]
              |split; reflexivity].
Qed.

Lemma events_since_suffix n n' t l1 l2 :
  events_since {| w_next := n; w_trace := t ++ l1 |}
               {| w_next := n'; w_trace := t ++ l1 ++ l2 |} = l2.
Proof. rewrite app_assoc. apply events_since_app. Qed.

(** The events of the second of two computations run in sequence. *)
Ltac events_suffix :=
  match goal with
  | |- context [events_since {| w_next := ?n; w_trace := ?t ++ ?l1 |}
                             {| w_next := ?n'; w_trace := ?t ++ ?l |}] =>
      let l2 := eval cbn [skipn List.length] in (skipn (List.length l1) l) in
      change l with (l1 ++ l2);
      rewrite (events_since_suffix n n' t l1 l2)
  end.

(** X22. Releasing a client context right after initialisation,
    whatever it held before: the credential is freed exactly when
    initialisation succeeded, the service name is freed exactly when it
    was stored, no security context is deleted, and the context is left
    empty. *)
Theorem client_init_then_clean
    E service flags user ulen domain dlen password plen mech st w :
  let '(r, st1, w1) :=
    auth_sspi_client_init E service flags user ulen domain dlen
      password plen mech st w in
  let '(_, st2, w2) := auth_sspi_client_clean st1 w1 in
  events_since w1 w2
  = match tag r with
    | Some Complete => [EvFreeCredentialsHandle (cl_cred st1)]
    | _ => []
    end ++ map EvFree (held (cl_spn st1)) /\
  held (cl_spn st1)
  = (if malloc_ok E (w_next w) then [w_next w] else []) /\
  cl_spn st2 = None /\ cl_response st2 = None /\ cl_username st2 = None /\
  cl_haveCred st2 = 0 /\ cl_haveCtx st2 = 0.
Proof.
  destruct st as [cred ctx spn response username fl haveCred haveCtx
                    qop conf complete].
  destruct w as [next trace].
  unfold auth_sspi_client_init, auth_sspi_client_clean.
  exec.
  all: rewrite <- ?app_assoc; cbn [app];
    rewrite ?events_since_same; try events_suffix.
  all: cbn [w_next]; recall.
  all: repeat split; reflexivity.
Qed.

(** X23. Releasing a context that was created and never
    initialised. A fresh server context has invalid handles and null
    buffers, and its release does nothing. A fresh client context has
    its have-context and have-credential flags unassigned: its release
    deletes the security context, and frees the credential, that the
    block happens to hold exactly when the memory of the respective
    flag is non-zero. *)
Theorem clean_of_fresh_context :
  (forall w,
      auth_sspi_server_clean sspi_server_state_new w
      = (tt, sspi_server_state_new, w)) /\
  (forall junk w,
      let '(_, st', w') :=
        auth_sspi_client_clean (sspi_client_state_new junk) w in
      events_since w w'
      = (if truthy (cl_haveCtx junk)
         then [EvDeleteSecurityContext (cl_ctx junk)] else [])
        ++ (if truthy (cl_haveCred junk)
            then [EvFreeCredentialsHandle (cl_cred junk)] else [])).
Proof.
  split.
  - intros [next trace]. reflexivity.
  - intros junk [next trace].
    destruct junk as [cred ctx spn response username fl haveCred haveCtx
                        qop conf complete].
    unfold auth_sspi_client_clean, sspi_client_state_new.
    cbn [cl_cred cl_ctx cl_flags cl_haveCred cl_haveCtx cl_qop].
    exec.
    all: rewrite <- ?app_assoc; cbn [app];
      rewrite ?events_since_app, ?events_since_same.
    all: recall; reflexivity.
Qed.

(** ** The client step *)

Ltac client_step_paths :=
  unfold auth_sspi_client_step, client_step_negotiate, base64_decode,
    base64_encode, wide_to_utf8;
  exec;
  rewrite <- ?app_assoc; cbn [app];
  rewrite ?events_since_app, ?events_since_same.

(** X4. When the provider's initialise call made by a client step
    reports a status other than success or continue, the step returns
    the error made from that status and the text
    [InitializeSecurityContext], leaves no pending token, and does not
    touch the context's have-context flag, completion flag or
    principal. *)
Theorem client_step_provider_failure E ch bindings st w :
  let '(r, st', w') := auth_sspi_client_step E ch bindings st w in
  forall cred ctx_in token,
    In (EvInitializeSecurityContext cred ctx_in token) (events_since w w') ->
    let reply :=
      InitializeSecurityContextW E cred ctx_in
        (option_map (@data _) (cl_spn st))
        (Z.lor ISC_REQ_ALLOCATE_MEMORY (cl_flags st)) bindings token in
    rp_status reply <> SEC_E_OK ->
    rp_status reply <> SEC_I_CONTINUE_NEEDED ->
    r = Returned (sspi_error_result E (rp_status reply)
                    "InitializeSecurityContext") /\
    cl_haveCtx st' = cl_haveCtx st /\
    cl_context_complete st' = cl_context_complete st /\
    cl_response st' = None /\
    cl_username st' = cl_username st.
Proof.
  destruct st as [cred ctx spn response username flags haveCred haveCtx
                    qop conf complete].
  destruct w as [next trace].
  cbn [cl_spn cl_flags cl_haveCtx cl_context_complete cl_username].
  client_step_paths.
  all: intros c0 ci tok HIn; in_events HIn.
  all: inversion HIn; subst; clear HIn.
  all: run; cbn [data] in *; recall; run; status_facts; intros N1 N2;
    try contradiction; try congruence.
  all: repeat split; reflexivity.
Qed.

Lemma client_step_provider_failure_witness :
  fst (fst (auth_sspi_client_step Refusal.env None None
              (fst Stub.client_ready) (snd Stub.client_ready)))
  = Returned (sspi_error_result Refusal.env Refusal.SEC_E_LOGON_DENIED
                "InitializeSecurityContext") /\
  cl_haveCtx
    (snd (fst (auth_sspi_client_step Refusal.env None None
                 (fst Stub.client_ready) (snd Stub.client_ready))))
  = 0.
Proof.
  pose proof (@client_step_provider_failure Refusal.env None None
                (fst Stub.client_ready) (snd Stub.client_ready)) as H.
  destruct (auth_sspi_client_step Refusal.env None None
              (fst Stub.client_ready) (snd Stub.client_ready))
    as [[r st'] w'] eqn:Hs.
  vm_compute in Hs. inversion Hs; subst r st' w'; clear Hs.
  destruct (H Stub.credential1 None None) as (Hr & Hc & _).
  - vm_compute. auto.
  - discriminate.
  - discriminate.
  - split; [exact Hr|exact Hc].
Defined.

(** X5. A client step that returns [Complete] has stored a
    principal: the provider's initialise call reported success, the
    names of the resulting security context were queried, and the
    context is marked as having a security context and as complete. *)
Theorem client_step_complete_has_principal E ch bindings st w :
  let '(r, st', w') := auth_sspi_client_step E ch bindings st w in
  tag r = Some Complete ->
  cl_username st' <> None /\
  cl_haveCtx st' = 1 /\
  cl_context_complete st' = TRUE /\
  exists cred ctx_in token,
    In (EvInitializeSecurityContext cred ctx_in token) (events_since w w') /\
    rp_status
      (InitializeSecurityContextW E cred ctx_in
         (option_map (@data _) (cl_spn st))
         (Z.lor ISC_REQ_ALLOCATE_MEMORY (cl_flags st)) bindings token)
    = SEC_E_OK /\
    In (EvQueryContextAttributes (cl_ctx st') SECPKG_ATTR_NAMES)
      (events_since w w').
Proof.
  destruct st as [cred ctx spn response username flags haveCred haveCtx
                    qop conf complete].
  destruct w as [next trace].
  cbn [cl_spn cl_flags].
  client_step_paths.
  all: intros T; try discriminate T.
  all: split; [discriminate|split; [reflexivity|split; [reflexivity|]]].
  all: do 3 eexists; split; [cbn; eauto 10|].
  all: run; cbn [data] in *; recall; run; status_facts.
  all: split; [assumption|cbn; eauto 12].
Qed.

Lemma client_step_complete_has_principal_witness :
  tag (fst (fst (auth_sspi_client_step Stub.env (Some "oRQ="%string) None
                   (fst Stub.client_negotiating)
                   (snd Stub.client_negotiating))))
  = Some Complete /\
  cl_username
    (snd (fst (auth_sspi_client_step Stub.env (Some "oRQ="%string) None
                 (fst Stub.client_negotiating)
                 (snd Stub.client_negotiating))))
  <> None.
Proof.
  pose proof (@client_step_complete_has_principal Stub.env
                (Some "oRQ="%string) None
                (fst Stub.client_negotiating)
                (snd Stub.client_negotiating)) as H.
  destruct (auth_sspi_client_step Stub.env (Some "oRQ="%string) None
              (fst Stub.client_negotiating) (snd Stub.client_negotiating))
    as [[r st'] w'] eqn:Hs.
  vm_compute in Hs. inversion Hs; subst r st' w'; clear Hs.
  split; [reflexivity|].
  exact (proj1 (H eq_refl)).
Defined.



(** Case analysis on the address tests of a trace that is written out. *)
Ltac address_cases :=
  repeat (cbn [filter existsb List.length orb In app addr] in *;
          match goal with
          | |- context [Nat.eqb ?x ?y] => destruct (Nat.eqb_spec x y)
          | H : context [Nat.eqb ?x ?y] |- _ => destruct (Nat.eqb_spec x y)
          end);
  cbn [filter existsb List.length orb In app addr] in *.

(** What is known of the blocks a context holds, once its pointers are
    written out. *)
Ltac known_addresses :=
  repeat match goal with
         | H : forall b, Some ?x = Some b -> _ |- _ =>
             specialize (H x eq_refl)
         | H : forall b, None = Some b -> _ |- _ => clear H
         | H : forall b c, Some ?x = Some b -> Some ?y = Some c -> _ |- _ =>
             specialize (H x y eq_refl eq_refl)
         | H : forall b c, _ = Some b -> _ = Some c -> _ |- _ => clear H
         end.

(** The path conditions play no part in the counting. *)
Ltac forget_equations :=
  repeat match goal with
         | H : ?x = _ |- _ =>
             lazymatch x with
             | frees _ _ => fail
             | _ => clear H
             end
         end.

Ltac discipline :=
  unfold disciplined, frees, allocated, held;
  intros a; split; intros Hd;
  address_cases; subst;
  try discriminate Hd;
  first [lia | left; reflexivity | intuition lia].

(** X7. Memory discipline of the client step, for a context whose
    token and principal are distinct blocks allocated earlier. Every
    block the step allocates is either the token or the principal the
    context holds afterwards, and then is not freed, or is freed exactly
    once; and the only other block the step frees is the token that was
    pending at entry, once. *)
Theorem client_step_buffer_discipline E ch bindings st w :
  (forall a, In a (held (cl_response st) ++ held (cl_username st)) ->
             (a < w_next w)%nat) ->
  NoDup (held (cl_response st) ++ held (cl_username st)) ->
  let '(_, st', w') := auth_sspi_client_step E ch bindings st w in
  disciplined (held (cl_response st))
    (held (cl_response st') ++ held (cl_username st'))
    (events_since w w').
Proof.
  intros Hlt Hnd.
  destruct st as [cred ctx spn response username flags haveCred haveCtx
                    qop conf complete].
  destruct w as [next trace].
  cbn [cl_response cl_username w_next] in *.
  assert (Hr : forall b, response = Some b -> (addr b < next)%nat).
  { intros b ->. apply Hlt. left. reflexivity. }
  assert (Hu : forall b, username = Some b -> (addr b < next)%nat).
  { intros b ->. apply Hlt. apply in_or_app. right. left. reflexivity. }
  assert (Hru : forall b c, response = Some b -> username = Some c ->
                            addr b <> addr c).
  { intros b c -> ->. cbn in Hnd. inversion Hnd as [|x l Hx _]; subst.
    intros Heq. apply Hx. left. symmetry. exact Heq. }
  clear Hlt Hnd.
  client_step_paths.
  all: try destruct username as [ub|]; try destruct response as [rb|].
  all: known_addresses.
  all: forget_equations.
  all: discipline.
Qed.

Lemma client_step_buffer_discipline_witness :
  NoDup (held (cl_response (fst Stub.client_negotiating))
         ++ held (cl_username (fst Stub.client_negotiating))) /\
  let '(_, st', w') :=
    auth_sspi_client_step Stub.env (Some "oRQ="%string) None
      (fst Stub.client_negotiating) (snd Stub.client_negotiating) in
  disciplined
    (held (cl_response (fst Stub.client_negotiating)))
    (held (cl_response st') ++ held (cl_username st'))
    (events_since (snd Stub.client_negotiating) w').
Proof.
  assert (Hn : NoDup (held (cl_response (fst Stub.client_negotiating))
                      ++ held (cl_username (fst Stub.client_negotiating)))).
  { vm_compute. constructor; [intros []|constructor]. }
  split; [exact Hn|].
  apply (@client_step_buffer_discipline Stub.env (Some "oRQ="%string) None
           (fst Stub.client_negotiating) (snd Stub.client_negotiating)).
  - vm_compute. intros a [<-|[]]. repeat constructor.
  - exact Hn.
Defined.

(** X8. The provider's buffers a client step hands back. When the
    initialise call was made they are the name buffer, on [Complete]
    and on no other result, followed by the output buffer of the call;
    when it was not made, none. In particular, when the step fails with
    the text [Unable to allocate memory for username], the names query
    had succeeded and the name buffer it returned is not handed back. *)
Theorem client_step_context_buffers E ch bindings st w :
  let '(r, st', w') := auth_sspi_client_step E ch bindings st w in
  (forall cred ci tok,
      In (EvInitializeSecurityContext cred ci tok) (events_since w w') ->
      context_released (events_since w w')
      = match tag r with
        | Some Complete =>
            held (snd (QueryContextAttributes_names E (cl_ctx st')))
        | _ => []
        end
          ++ held (rp_output
                     (InitializeSecurityContextW E cred ci
                        (option_map (@data _) (cl_spn st))
                        (Z.lor ISC_REQ_ALLOCATE_MEMORY (cl_flags st))
                        bindings tok))) /\
  ((forall cred ci tok,
       ~ In (EvInitializeSecurityContext cred ci tok) (events_since w w')) ->
   context_released (events_since w w') = []) /\
  (r = Returned (sspi_error_result_with_message
                   "Unable to allocate memory for username") ->
   cl_username st' = None /\
   exists ctx,
     In (EvQueryContextAttributes ctx SECPKG_ATTR_NAMES) (events_since w w')
     /\ fst (QueryContextAttributes_names E ctx) = SEC_E_OK).
Proof.
  destruct st as [cred ctx spn response username flags haveCred haveCtx
                    qop conf complete].
  destruct w as [next trace].
  client_step_paths.
  all: split; [intros c0 ci tok HIn; in_events HIn;
               inversion HIn; subst; clear HIn;
               run; cbn [data] in *; recall; run; reflexivity|].
  all: split; [intros HN;
               first [reflexivity
                     | exfalso; eapply HN; cbn; eauto 12]|].
  all: intros Hr; try discriminate Hr.
  all: try (exfalso; unfold sspi_error_result in Hr;
            destruct (FormatMessageA _ _); cbn in Hr; discriminate Hr).
  all: split; [reflexivity|].
  all: eexists; split; [cbn; eauto 12|].
  all: recall; cbn [fst]; status_facts; assumption.
Qed.

(** ** The server step *)

(** The accept phase, outcome by outcome. *)
Lemma server_step_accept_summary E b st w :
  let '(r, st', w') := server_step_accept E b st w in
  exists evs,
    w_trace w' = w_trace w ++ evs /\
    (sv_username st = None -> sv_consistent st') /\
    (tag r = Some Continue ->
     sv_context_complete st' = sv_context_complete st /\
     exists cred ci tok,
       In (EvAcceptSecurityContext cred ci tok) evs /\
       rp_status (AcceptSecurityContext E cred ci tok)
       = SEC_I_CONTINUE_NEEDED /\
       exists text,
         sv_response st' = Some text /\
         CryptStringToBinaryA (Some (data text))
         = Some (accept_output (AcceptSecurityContext E cred ci tok))) /\
    (tag r = Some Complete ->
     sv_username st' <> None /\
     sv_context_complete st' = TRUE /\
     exists cred ci tok,
       In (EvAcceptSecurityContext cred ci tok) evs /\
       rp_status (AcceptSecurityContext E cred ci tok) = SEC_E_OK) /\
    (sv_response st = None ->
     tag r <> Some Continue -> sv_response st' = None) /\
    (forall cred ci tok,
       In (EvAcceptSecurityContext cred ci tok) evs ->
       rp_status (AcceptSecurityContext E cred ci tok) <> SEC_E_OK ->
       rp_status (AcceptSecurityContext E cred ci tok)
       <> SEC_I_CONTINUE_NEEDED ->
       r = Returned (sspi_error_result E
                       (rp_status (AcceptSecurityContext E cred ci tok))
                       "AcceptSecurityContext failed") /\
       SecIsValidHandle (sv_ctx st') = false /\
       sv_context_complete st' = sv_context_complete st) /\
    (forall ctx,
       In (EvQueryContextAttributes ctx SECPKG_ATTR_NATIVE_NAMES) evs ->
       context_released evs
       = if fst (QueryContextAttributes_native_names E ctx) =? SEC_E_OK
         then held (snd (QueryContextAttributes_native_names E ctx))
         else []) /\
    ((forall ctx,
         ~ In (EvQueryContextAttributes ctx SECPKG_ATTR_NATIVE_NAMES) evs) ->
     context_released evs = []).
Proof.
  destruct st as [ctx cred response username complete targetname].
  destruct w as [next trace].
  cbn [sv_username sv_context_complete sv_response sv_ctx] in *.
  unfold server_step_accept, base64_encode, wide_to_utf8, sv_consistent,
    accept_output.
  exec.
  all: (eexists; split; [trace_eq|]).
  all: cbn [sv_username sv_context_complete sv_response sv_ctx].
  all: split; [intros ->; first [left; reflexivity|right; reflexivity]|].
  all: split; [intros T; try discriminate T|].
  all: try (split; [reflexivity|]; do 3 eexists;
            split; [cbn; eauto 10|];
            run; cbn [data] in *; recall; run; status_facts;
            split; [assumption|];
            eexists; split; [reflexivity|]; cbn [data];
            apply codec_round_trip).
  all: split; [intros T; try discriminate T|].
  all: try (split; [discriminate|]; split; [reflexivity|];
            do 3 eexists; split; [cbn; eauto 10|];
            run; cbn [data] in *; recall; run; status_facts; assumption).
  all: split; [intros -> T; try reflexivity; exfalso; apply T; reflexivity|].
  all: split;
    [intros c0 ci tok HIn; in_events HIn;
     inversion HIn; subst; clear HIn;
     run; cbn [data] in *; recall; run; status_facts; intros N1 N2;
     try contradiction; try congruence;
     repeat split; try reflexivity; try assumption;
     try apply invalid_handle_not_valid|].
  all: split;
    [intros c0 HIn; in_events HIn;
     inversion HIn; subst; clear HIn;
     recall; cbn [fst snd]; recall; reflexivity|].
  all: intros HN;
    first [reflexivity | exfalso; eapply HN; cbn; eauto 12].
Qed.

Ltac server_step_prefix :=
  unfold auth_sspi_server_step, base64_decode;
  exec.

Ltac use_accept_summary :=
  match goal with
  | H : server_step_accept ?E ?b ?s ?w = (_, ?s', ?w') |- _ =>
      let S := fresh "S" in
      pose proof (server_step_accept_summary E b s w) as S;
      rewrite H in S; clear H;
      destruct s' as [ctx' cred' response' username' complete' targetname'];
      destruct w' as [next' trace'];
      cbn [sv_username sv_context_complete sv_response sv_ctx w_trace] in S;
      destruct S as (evs & Hw & Hcons & Hcont & Hcomp & Hresp & Hfail
                       & Hrel & Hnorel);
      subst trace';
      cbn beta iota;
      rewrite <- ?app_assoc; cbn [app];
      rewrite ?events_since_app
  end.

(** X9. On the server side a stored principal belongs to a
    completed exchange: a context that stores a principal has its
    completion flag set. This holds of a fresh context, after
    initialisation and after release whatever the context was, and
    every step preserves it. *)
Theorem server_consistency_is_kept :
  sv_consistent sspi_server_state_new /\
  (forall E service st w,
      sv_consistent (snd (fst (auth_sspi_server_init E service st w)))) /\
  (forall st w, sv_consistent (snd (fst (auth_sspi_server_clean st w)))) /\
  (forall E ch st w,
      sv_consistent st ->
      sv_consistent (snd (fst (auth_sspi_server_step E ch st w)))).
Proof.
  split; [left; reflexivity|].
  split; [|split].
  - intros E service st w.
    destruct st as [ctx cred response username complete targetname].
    destruct w as [next trace].
    destruct (auth_sspi_server_init E service _ _) as [[r st'] w'] eqn:H.
    cbn [fst snd]. revert H.
    unfold auth_sspi_server_init, auth_sspi_server_clean; exec;
      intros H; inversion H; left; reflexivity.
  - intros st w.
    destruct st as [ctx cred response username complete targetname].
    destruct w as [next trace].
    destruct (auth_sspi_server_clean _ _) as [[r st'] w'] eqn:H.
    cbn [fst snd]. revert H.
    unfold auth_sspi_server_clean; exec; intros H; inversion H;
      left; reflexivity.
  - intros E ch st w Hc.
    destruct st as [ctx cred response username complete targetname].
    destruct w as [next trace].
    unfold sv_consistent in Hc. cbn [sv_username sv_context_complete] in Hc.
    destruct (auth_sspi_server_step E ch _ _) as [[r st'] w'] eqn:H.
    cbn [fst snd]. revert H.
    destruct (truthy complete) eqn:Ht.
    + server_step_prefix; intros H;
        try (use_accept_summary; apply Hcons; reflexivity);
        inversion H; subst; left; reflexivity.
    + destruct Hc as [->|Hc]; [|discriminate Hc].
      server_step_prefix; intros H;
        try (use_accept_summary; apply Hcons; reflexivity);
        inversion H; subst; left; reflexivity.
Qed.

Lemma server_consistency_is_kept_witness :
  sv_consistent (fst Stub.server_negotiating) /\
  sv_consistent
    (snd (fst (auth_sspi_server_step Stub.env (Some "YIIA"%string)
                 (fst Stub.server_negotiating)
                 (snd Stub.server_negotiating)))).
Proof.
  assert (H : sv_consistent (fst Stub.server_negotiating))
    by (left; reflexivity).
  split; [exact H|].
  exact (proj2 (proj2 (proj2 server_consistency_is_kept))
           Stub.env (Some "YIIA"%string)
           (fst Stub.server_negotiating) (snd Stub.server_negotiating) H).
Defined.

(** X10. Outcomes of a server step. If it returns [Continue], the
    context is not complete, the provider's accept call asked for
    another round, and the pending token is the base64 text of the
    output of that call. If it returns [Complete], the accept call
    succeeded, the context is marked complete and stores a principal.
    In every case but [Continue] there is no pending token. *)
Theorem server_step_outcome E ch st w :
  let '(r, st', w') := auth_sspi_server_step E ch st w in
  (tag r = Some Continue ->
   truthy (sv_context_complete st') = false /\
   exists cred ci tok,
     In (EvAcceptSecurityContext cred ci tok) (events_since w w') /\
     rp_status (AcceptSecurityContext E cred ci tok)
     = SEC_I_CONTINUE_NEEDED /\
     exists text,
       sv_response st' = Some text /\
       CryptStringToBinaryA (Some (data text))
       = Some (accept_output (AcceptSecurityContext E cred ci tok))) /\
  (tag r = Some Complete ->
   sv_username st' <> None /\
   sv_context_complete st' = TRUE /\
   exists cred ci tok,
     In (EvAcceptSecurityContext cred ci tok) (events_since w w') /\
     rp_status (AcceptSecurityContext E cred ci tok) = SEC_E_OK) /\
  (tag r <> Some Continue -> sv_response st' = None).
Proof.
  destruct st as [ctx cred response username complete targetname].
  destruct w as [next trace].
  server_step_prefix.
  all: try use_accept_summary.
  all: split; [intros T; try discriminate T|].
  all: try (destruct (Hcont T) as (Hcc & c0 & ci & tok & HIn & Hs & Htext);
            split; [rewrite Hcc; first [reflexivity|assumption]|];
            exists c0, ci, tok;
            split; [repeat (first [exact HIn|apply in_cons]);
                    apply in_or_app; right; exact HIn|];
            split; [exact Hs|exact Htext]).
  all: split; [intros T2; try discriminate T2|].
  all: try (destruct (Hcomp T2) as (Hn & Hcc & c0 & ci & tok & HIn & Hs);
            split; [exact Hn|]; split; [exact Hcc|];
            exists c0, ci, tok;
            split; [repeat (first [exact HIn|apply in_cons]);
                    apply in_or_app; right; exact HIn|exact Hs]).
  all: intros T3;
    first [reflexivity | apply Hresp; [reflexivity|exact T3]].
Qed.

(** X11. When the provider's accept call made by a server step
    reports a status other than success or continue, the step returns
    the error made from that status and the text
    [AcceptSecurityContext failed], and leaves the context without
    security context, without pending token and not complete. *)
Theorem server_step_accept_failure E ch st w :
  let '(r, st', w') := auth_sspi_server_step E ch st w in
  forall cred ci tok,
    In (EvAcceptSecurityContext cred ci tok) (events_since w w') ->
    rp_status (AcceptSecurityContext E cred ci tok) <> SEC_E_OK ->
    rp_status (AcceptSecurityContext E cred ci tok)
    <> SEC_I_CONTINUE_NEEDED ->
    r = Returned (sspi_error_result E
                    (rp_status (AcceptSecurityContext E cred ci tok))
                    "AcceptSecurityContext failed") /\
    SecIsValidHandle (sv_ctx st') = false /\
    sv_response st' = None /\
    truthy (sv_context_complete st') = false.
Proof.
  destruct st as [ctx cred response username complete targetname].
  destruct w as [next trace].
  server_step_prefix.
  all: try use_accept_summary.
  all: rewrite <- ?app_assoc; cbn [app];
    rewrite ?events_since_app, ?events_since_same.
  all: intros c0 ci tok HIn N1 N2.
  all: repeat (destruct HIn as [HIn|HIn]; [discriminate HIn|]);
    try contradiction.
  all: destruct (Hfail c0 ci tok HIn N1 N2) as (Hr & Hv & Hc).
  all: split; [exact Hr|]; split; [exact Hv|].
  all: split; [apply Hresp; [reflexivity|rewrite Hr; discriminate]|].
  all: rewrite Hc; first [reflexivity|assumption].
Qed.

Lemma server_step_accept_failure_witness :
  fst (fst (auth_sspi_server_step Refusal.env (Some "YIIA"%string)
              (fst Stub.server_ready) (snd Stub.server_ready)))
  = Returned (sspi_error_result Refusal.env Refusal.SEC_E_LOGON_DENIED
                "AcceptSecurityContext failed").
Proof.
  pose proof (@server_step_accept_failure Refusal.env (Some "YIIA"%string)
                (fst Stub.server_ready) (snd Stub.server_ready)) as H.
  destruct (auth_sspi_server_step Refusal.env (Some "YIIA"%string)
              (fst Stub.server_ready) (snd Stub.server_ready))
    as [[r st'] w'] eqn:Hs.
  vm_compute in Hs. inversion Hs; subst r st' w'; clear Hs.
  destruct (H Stub.credential1 None [x60; x82; x00]) as (Hr & _).
  - vm_compute. auto 10.
  - discriminate.
  - discriminate.
  - exact Hr.
Defined.

(** X12. A server step whose challenge is not empty and is not
    base64 returns the error [Unable to base64 decode challenge]. It
    allocates nothing and makes no provider call but the release of a
    completed exchange's security context; the credential is kept,
    there is no pending token, and a context that was not complete
    keeps its security context, its principal and its flag. *)
Theorem server_step_undecodable_challenge E s st w :
  c_nonempty s = true ->
  CryptStringToBinaryA (Some s) = None ->
  let '(r, st', w') := auth_sspi_server_step E (Some s) st w in
  r = Returned (sspi_error_result_with_message
                  "Unable to base64 decode challenge") /\
  sv_response st' = None /\
  sv_cred st' = sv_cred st /\
  (truthy (sv_context_complete st) = false ->
   sv_ctx st' = sv_ctx st /\ sv_username st' = sv_username st /\
   sv_context_complete st' = sv_context_complete st) /\
  w_next w' = w_next w /\
  filter is_provider_call (events_since w w')
  = (if truthy (sv_context_complete st) && SecIsValidHandle (sv_ctx st)
     then [EvDeleteSecurityContext (sv_ctx st)] else []).
Proof.
  intros Hs Hd.
  destruct st as [ctx cred response username complete targetname].
  destruct w as [next trace].
  unfold auth_sspi_server_step, base64_decode.
  rewrite Hs.
  exec.
  all: rewrite <- ?app_assoc; rewrite ?events_since_app, ?events_since_same.
  all: split; [reflexivity|]; split; [reflexivity|]; split; [reflexivity|].
  all: split; [intros T; try discriminate T; repeat split; reflexivity|].
  all: split; reflexivity.
Qed.

Lemma server_step_undecodable_challenge_witness :
  CryptStringToBinaryA (Some "!!!!"%string) = None /\
  let '(r, st', w') :=
    auth_sspi_server_step Stub.env (Some "!!!!"%string)
      (fst Stub.server_negotiating) (snd Stub.server_negotiating) in
  r = Returned (sspi_error_result_with_message
                  "Unable to base64 decode challenge") /\
  sv_ctx st' = Stub.context1.
Proof.
  split; [reflexivity|].
  pose proof (@server_step_undecodable_challenge Stub.env "!!!!"%string
                (fst Stub.server_negotiating) (snd Stub.server_negotiating)
                eq_refl eq_refl) as H.
  destruct (auth_sspi_server_step Stub.env (Some "!!!!"%string)
              (fst Stub.server_negotiating) (snd Stub.server_negotiating))
    as [[r st'] w'].
  destruct H as (Hr & _ & _ & Hk & _).
  split; [exact Hr|].
  destruct (Hk eq_refl) as (Hc & _). rewrite Hc. reflexivity.
Defined.

(** X14. The provider's buffers a server step hands back: when the
    native names of the security context were queried and the query
    succeeded, the name buffer it returned, whether or not the principal
    could be stored from it; in every other case none. *)
Theorem server_step_context_buffers E ch st w :
  let '(_, _, w') := auth_sspi_server_step E ch st w in
  (forall ctx,
      In (EvQueryContextAttributes ctx SECPKG_ATTR_NATIVE_NAMES)
         (events_since w w') ->
      context_released (events_since w w')
      = if fst (QueryContextAttributes_native_names E ctx) =? SEC_E_OK
        then held (snd (QueryContextAttributes_native_names E ctx))
        else []) /\
  ((forall ctx,
       ~ In (EvQueryContextAttributes ctx SECPKG_ATTR_NATIVE_NAMES)
            (events_since w w')) ->
   context_released (events_since w w') = []).
Proof.
  destruct st as [ctx cred response username complete targetname].
  destruct w as [next trace].
  server_step_prefix.
  all: try use_accept_summary.
  all: rewrite <- ?app_assoc; cbn [app];
    rewrite ?events_since_app, ?events_since_same.
  all: unfold context_released in *; cbn [flat_map app].
  all: split;
    [intros c0 HIn;
     repeat (destruct HIn as [HIn|HIn]; [discriminate HIn|]);
     try contradiction; apply Hrel; exact HIn
    |intros HN; try reflexivity; apply Hnorel;
     intros c0 HIn; apply (HN c0);
     repeat (first [exact HIn|apply in_cons])].
Qed.

Lemma frees_app a l1 l2 :
  frees a (l1 ++ l2) = (frees a l1 + frees a l2)%nat.
Proof. unfold frees. rewrite filter_app. apply length_app. Qed.

Lemma allocated_app a l1 l2 :
  allocated a (l1 ++ l2) = allocated a l1 || allocated a l2.
Proof. apply existsb_app. Qed.

(** The accept phase uses the decoded challenge and its own blocks
    only: the challenge buffer is released once, every block the phase
    allocates is fresh and is either stored in the context or released
    once, and nothing else is released. *)
Lemma server_step_accept_discipline E b st w :
  fst (QuerySecurityPackageInfoW E) = SEC_E_OK ->
  sv_response st = None ->
  (addr b < w_next w)%nat ->
  (forall a, In a (held (sv_username st)) -> (a < w_next w)%nat) ->
  let '(_, st', w') := server_step_accept E b st w in
  exists evs,
    w_trace w' = w_trace w ++ evs /\
    (forall a,
        (allocated a evs = true ->
         (w_next w <= a)%nat /\
         ((In a (held (sv_response st') ++ held (sv_username st'))
           /\ frees a evs = 0%nat)
          \/ (~ In a (held (sv_response st') ++ held (sv_username st'))
              /\ frees a evs = 1%nat))) /\
        ((0 < frees a evs)%nat ->
         frees a evs = 1%nat /\ (allocated a evs = true \/ a = addr b)) /\
        (In a (held (sv_response st') ++ held (sv_username st')) ->
         allocated a evs = true \/ In a (held (sv_username st)))) /\
    frees (addr b) evs = 1%nat.
Proof.
  intros HQ Hr Hb Hu.
  destruct st as [ctx cred response username complete targetname].
  destruct w as [next trace].
  destruct (QuerySecurityPackageInfoW E) as [qs cbMaxToken] eqn:HQE.
  cbn [fst] in HQ. subst qs.
  cbn [sv_response sv_username w_next] in *. subst response.
  assert (Hu' : forall c, username = Some c -> (addr c < next)%nat)
    by (intros c ->; apply Hu; left; reflexivity).
  clear Hu.
  unfold server_step_accept, base64_encode, wide_to_utf8.
  exec.
  all: (eexists; split; [trace_eq|]).
  all: destruct username as [ub|]; known_addresses.
  all: forget_equations.
  all: unfold frees, allocated, held.
  all: split;
    [intros a; split; [|split]; intros Hd
    |address_cases; first [reflexivity|lia]].
  all: address_cases; subst; try discriminate Hd;
    first [lia | left; reflexivity | right; assumption].
Qed.

(** The accept phase with its results: it is the accept phase, it
    returns the result made last, and it has made one result, or two
    when the accept call succeeded and the step ends in an error. *)
Lemma server_step_accept_made_spec E b st w :
  let '((r, made), st', w') := server_step_accept_made E b st w in
  server_step_accept E b st w = (r, st', w') /\
  exists evs x,
    w_trace w' = w_trace w ++ evs /\
    r = Returned x /\
    ((made = [x] /\
      (tag r = Some Error ->
       forall cred ci tok,
         In (EvAcceptSecurityContext cred ci tok) evs ->
         rp_status (AcceptSecurityContext E cred ci tok) <> SEC_E_OK))
     \/ (made = [sspi_success_result AUTH_GSS_COMPLETE; x] /\
         tag r = Some Error /\
         exists cred ci tok,
           In (EvAcceptSecurityContext cred ci tok) evs /\
           rp_status (AcceptSecurityContext E cred ci tok) = SEC_E_OK)).
Proof.
  destruct st as [ctx cred response username complete targetname].
  destruct w as [next trace].
  unfold server_step_accept_made, server_step_end_made, server_step_accept,
    base64_encode, wide_to_utf8, ret_of.
  exec.
  all: cbn [rev app].
  all: split; [reflexivity|].
  all: do 2 eexists; split; [trace_eq|]; split; [reflexivity|].
  all: first
         [ left; split; [reflexivity|];
           intros T; try discriminate T;
           intros c0 ci tok HIn; in_events HIn;
           inversion HIn; subst; clear HIn;
           run; cbn [data] in *; recall; run; status_facts; assumption
         | right; split; [reflexivity|]; split; [reflexivity|];
           do 3 eexists; split; [cbn; eauto 12|];
           run; cbn [data] in *; recall; run; status_facts; assumption ].
Qed.

(** X13. Memory discipline of the server step when the token size
    query succeeds, for a context whose token and principal are distinct
    blocks allocated earlier; [auth_sspi_server_step_made] is the step
    itself, with the results it makes. Buffers: every block the step
    allocates is either the token or the principal the context holds
    afterwards, and then is not freed, or is freed exactly once; the
    only other blocks it frees are the token and the principal held at
    entry, each once, and they are no longer held afterwards. Results:
    the step returns the result it made last, and it made no other,
    with one exception: when the accept call succeeded and the step
    ends in an error (the principal could not be obtained), the
    [Complete] result made right after the call has been replaced by
    the error, and is neither returned nor freed. *)
Theorem server_step_buffer_discipline E ch st w :
  fst (QuerySecurityPackageInfoW E) = SEC_E_OK ->
  (forall a, In a (held (sv_response st) ++ held (sv_username st)) ->
             (a < w_next w)%nat) ->
  NoDup (held (sv_response st) ++ held (sv_username st)) ->
  let '((r, made), st', w') := auth_sspi_server_step_made E ch st w in
  auth_sspi_server_step E ch st w = (r, st', w') /\
  disciplined (held (sv_response st) ++ held (sv_username st))
    (held (sv_response st') ++ held (sv_username st'))
    (events_since w w') /\
  exists x,
    r = Returned x /\
    ((made = [x] /\
      (tag r = Some Error ->
       forall cred ci tok,
         In (EvAcceptSecurityContext cred ci tok) (events_since w w') ->
         rp_status (AcceptSecurityContext E cred ci tok) <> SEC_E_OK))
     \/ (made = [sspi_success_result AUTH_GSS_COMPLETE; x] /\
         tag r = Some Error /\
         exists cred ci tok,
           In (EvAcceptSecurityContext cred ci tok) (events_since w w') /\
           rp_status (AcceptSecurityContext E cred ci tok) = SEC_E_OK)).
Proof.
  intros HQ Hlt Hnd.
  destruct st as [ctx cred response username complete targetname].
  destruct w as [next trace].
  cbn [sv_response sv_username w_next] in *.
  assert (Hr : forall b, response = Some b -> (addr b < next)%nat).
  { intros b ->. apply Hlt. left. reflexivity. }
  assert (Hu : forall b, username = Some b -> (addr b < next)%nat).
  { intros b ->. apply Hlt. apply in_or_app. right. left. reflexivity. }
  assert (Hru : forall b c, response = Some b -> username = Some c ->
                            addr b <> addr c).
  { intros b c -> ->. cbn in Hnd. inversion Hnd as [|x l Hx _]; subst.
    intros Heq. apply Hx. left. symmetry. exact Heq. }
  clear Hlt Hnd.
  unfold auth_sspi_server_step_made, auth_sspi_server_step, base64_decode,
    ret_of.
  exec.
  all: cbn [rev app].
  all: try destruct username as [ub|]; try destruct response as [rb|].
  all: known_addresses.
  all: try match goal with
         | H : server_step_accept_made ?E ?b ?s ?w = (_, ?s', ?w') |- _ =>
             let A := fresh "A" in
             let S := fresh "S" in
             assert (A := @server_step_accept_made_spec E b s w);
             rewrite H in A; clear H;
             destruct A as (A & evs' & x & Hw' & Hx & Hmade);
             assert (S := @server_step_accept_discipline E b s w HQ eq_refl);
             rewrite A in S;
             destruct s' as [ctx' cred' response' username' complete'
                               targetname'];
             destruct w' as [next' trace'];
             cbn [sv_username sv_response w_trace w_next addr held In]
               in S, Hw';
             destruct S as (evs & Hw & Hd & Hb);
               [lia | intros a0 Ha0; lia |];
             rewrite Hw in Hw'; apply app_inv_head in Hw';
             subst trace' evs'
         end.
  all: split; [first [reflexivity|assumption]|].
  all: rewrite <- ?app_assoc;
    rewrite ?events_since_app, ?events_since_same.
  all: split;
    [|cbn [app];
      first
        [ exists x; split; [exact Hx|];
          destruct Hmade as [[Hm Hn]|[Hm [Ht (c0 & ci & tok & HIn & Hs)]]];
          [ left; split; [exact Hm|];
            intros T c0 ci tok HIn;
            repeat (destruct HIn as [HIn|HIn]; [discriminate HIn|]);
            exact (Hn T c0 ci tok HIn)
          | right; split; [exact Hm|]; split; [exact Ht|];
            exists c0, ci, tok;
            split; [repeat (first [exact HIn|apply in_cons])|exact Hs] ]
        | eexists; split; [reflexivity|];
          left; split; [reflexivity|];
          intros _ c0 ci tok HIn;
          repeat (destruct HIn as [HIn|HIn]; [discriminate HIn|]);
          contradiction ]].
  all: try clear Hmade; forget_equations.
  all: unfold disciplined; intros a;
    rewrite ?frees_app, ?allocated_app;
    try (specialize (Hd a); revert Hd;
         match goal with
         | Hb : frees _ ?evs = _ |- _ =>
             destruct (allocated a evs) eqn:Hal;
             destruct (frees a evs) as [|k] eqn:Hk
         end;
         intros (Hd1 & Hd2 & Hd3);
         try specialize (Hd1 eq_refl);
         try specialize (Hd2 (Nat.lt_0_succ k)));
    unfold frees, allocated, held in *.
  all: split; intros Hd; address_cases; subst; try discriminate Hd.
  all: first [lia | left; reflexivity | intuition lia].
Qed.

Lemma server_step_buffer_discipline_witness :
  NoDup (held (sv_response (fst Stub.server_negotiating))
         ++ held (sv_username (fst Stub.server_negotiating))) /\
  snd (fst (fst (auth_sspi_server_step_made Nameless.env
                   (Some "YIIA"%string)
                   (fst Stub.server_negotiating)
                   (snd Stub.server_negotiating))))
  = [sspi_success_result AUTH_GSS_COMPLETE;
     sspi_error_result_with_message "Unable to obtain username"] /\
  let '((r, made), st', w') :=
    auth_sspi_server_step_made Nameless.env (Some "YIIA"%string)
      (fst Stub.server_negotiating) (snd Stub.server_negotiating) in
  auth_sspi_server_step Nameless.env (Some "YIIA"%string)
    (fst Stub.server_negotiating) (snd Stub.server_negotiating)
  = (r, st', w') /\
  disciplined
    (held (sv_response (fst Stub.server_negotiating))
     ++ held (sv_username (fst Stub.server_negotiating)))
    (held (sv_response st') ++ held (sv_username st'))
    (events_since (snd Stub.server_negotiating) w') /\
  exists x,
    r = Returned x /\
    ((made = [x] /\
      (tag r = Some Error ->
       forall cred ci tok,
         In (EvAcceptSecurityContext cred ci tok)
            (events_since (snd Stub.server_negotiating) w') ->
         rp_status (AcceptSecurityContext Nameless.env cred ci tok)
         <> SEC_E_OK))
     \/ (made = [sspi_success_result AUTH_GSS_COMPLETE; x] /\
         tag r = Some Error /\
         exists cred ci tok,
           In (EvAcceptSecurityContext cred ci tok)
              (events_since (snd Stub.server_negotiating) w') /\
           rp_status (AcceptSecurityContext Nameless.env cred ci tok)
           = SEC_E_OK)).
Proof.
  assert (Hn : NoDup (held (sv_response (fst Stub.server_negotiating))
                      ++ held (sv_username (fst Stub.server_negotiating)))).
  { vm_compute. constructor; [intros []|constructor]. }
  split; [exact Hn|].
  split; [vm_compute; reflexivity|].
  apply (@server_step_buffer_discipline Nameless.env (Some "YIIA"%string)
           (fst Stub.server_negotiating) (snd Stub.server_negotiating)).
  - reflexivity.
  - vm_compute. intros a [<-|[]]. repeat constructor.
  - exact Hn.
Defined.

(** ** Unwrap and wrap *)

(** X15. On a client context without security context, wrap and
    unwrap return the uninitialised-context error after freeing the
    pending token, if any. No provider call is made, nothing is
    allocated, and the context is otherwise unchanged, except that
    unwrap also puts the protection level back to no-encryption when a
    token was pending. *)
Theorem wrap_unwrap_without_context E st w data_arg user ulen protect ch :
  truthy (cl_haveCtx st) = false ->
  auth_sspi_client_wrap E data_arg user ulen protect st w
  = (Returned (sspi_error_result_with_message uninitialized_context_message),
     set_cl_response None st,
     {| w_next := w_next w;
        w_trace := w_trace w ++ map EvFree (held (cl_response st)) |}) /\
  auth_sspi_client_unwrap E ch st w
  = (Returned (sspi_error_result_with_message uninitialized_context_message),
     match cl_response st with
     | Some _ => set_cl_qop SECQOP_WRAP_NO_ENCRYPT (set_cl_response None st)
     | None => st
     end,
     {| w_next := w_next w;
        w_trace := w_trace w ++ map EvFree (held (cl_response st)) |}).
Proof.
  intros Hc.
  destruct st as [cred ctx spn response username flags haveCred haveCtx
                    qop conf complete].
  destruct w as [next trace]. cbn [cl_haveCtx] in Hc.
  unfold auth_sspi_client_wrap, auth_sspi_client_unwrap.
  split; destruct response; run; rewrite Hc; cbn [held map];
    rewrite ?app_nil_r; reflexivity.
Qed.

Lemma wrap_unwrap_without_context_witness :
  truthy (cl_haveCtx (fst Stub.client_ready)) = false /\
  fst (fst (auth_sspi_client_unwrap Stub.env (Some "YIIA"%string)
              (fst Stub.client_ready) (snd Stub.client_ready)))
  = Returned (sspi_error_result_with_message uninitialized_context_message).
Proof.
  split; [reflexivity|].
  rewrite (proj2 (@wrap_unwrap_without_context Stub.env
                    (fst Stub.client_ready) (snd Stub.client_ready)
                    None ""%string 0 0 (Some "YIIA"%string) eq_refl)).
  reflexivity.
Defined.

(** X16. Outcomes of unwrap. It never returns [Continue]. If it
    returns [Complete], the context had a security context, the
    challenge decoded, the provider's decrypt call on the decoded bytes
    succeeded, the protection level of the context is the one that call
    wrote back, and the pending token is the base64 text of the
    decrypted data, or absent when the data is empty. In every other
    case there is no pending token; and when the decrypt call reports a
    failure, the result is the error made from its status and the text
    [DecryptMessage]. *)
Theorem unwrap_outcome E ch st w :
  let '(r, st', w') := auth_sspi_client_unwrap E ch st w in
  (tag r = Some Complete ->
   truthy (cl_haveCtx st) = true /\
   exists stream q,
     CryptStringToBinaryA ch = Some stream /\
     In (EvDecryptMessage (cl_ctx st) stream q) (events_since w w') /\
     let '(status, plain, qop') :=
       DecryptMessage E (cl_ctx st) stream q in
     status = SEC_E_OK /\
     cl_qop st' = qop' /\
     match cl_response st' with
     | Some text =>
         plain <> [] /\
         CryptStringToBinaryA (Some (data text)) = Some plain
     | None => plain = []
     end) /\
  (tag r <> Some Complete -> cl_response st' = None) /\
  tag r <> Some Continue /\
  (forall stream q,
     In (EvDecryptMessage (cl_ctx st) stream q) (events_since w w') ->
     fst (fst (DecryptMessage E (cl_ctx st) stream q)) <> SEC_E_OK ->
     r = Returned (sspi_error_result E
                     (fst (fst (DecryptMessage E (cl_ctx st) stream q)))
                     "DecryptMessage")).
Proof.
  destruct st as [cred ctx spn response username flags haveCred haveCtx
                    qop conf complete].
  destruct w as [next trace].
  unfold auth_sspi_client_unwrap, base64_decode, base64_encode.
  exec.
  all: rewrite <- ?app_assoc; cbn [app];
    rewrite ?events_since_app, ?events_since_same.
  all: split; [intros T; try discriminate T|].
  all: try (split; [first [reflexivity|assumption]|];
            do 2 eexists; split; [reflexivity|];
            split; [cbn; eauto 10|];
            cbn [data] in *; recall; cbv beta iota; status_facts;
            split; [assumption|]; split; [reflexivity|];
            first [ split; [intros Hn; subst; auto|apply codec_round_trip]
                  | match goal with
                    | H : Z.of_nat (List.length ?p) = 0 |- ?p = [] =>
                        destruct p;
                        [reflexivity|cbn [List.length] in H; lia]
                    end ]).
  all: split; [intros T; first [reflexivity|exfalso; apply T; reflexivity]|].
  all: split; [discriminate|].
  all: intros stream q HIn; in_events HIn.
  all: inversion HIn; subst; clear HIn.
  all: cbn [data] in *; recall; cbn [fst]; status_facts; intros N;
    try contradiction; reflexivity.
Qed.

(** X17. Memory discipline of unwrap, for a context whose pending
    token is a block allocated earlier. Every block unwrap allocates is
    either the token the context holds afterwards, and then is not
    freed, or is freed exactly once; and the only other block it frees
    is the token that was pending at entry, once. *)
Theorem unwrap_buffer_discipline E ch st w :
  (forall a, In a (held (cl_response st)) -> (a < w_next w)%nat) ->
  let '(_, st', w') := auth_sspi_client_unwrap E ch st w in
  disciplined (held (cl_response st)) (held (cl_response st'))
    (events_since w w').
Proof.
  intros Hlt.
  destruct st as [cred ctx spn response username flags haveCred haveCtx
                    qop conf complete].
  destruct w as [next trace].
  cbn [cl_response w_next] in *.
  assert (Hr : forall b, response = Some b -> (addr b < next)%nat).
  { intros b ->. apply Hlt. left. reflexivity. }
  clear Hlt.
  unfold auth_sspi_client_unwrap, base64_decode, base64_encode.
  exec.
  all: rewrite <- ?app_assoc; cbn [app];
    rewrite ?events_since_app, ?events_since_same.
  all: try destruct response as [rb|].
  all: known_addresses.
  all: forget_equations.
  all: discipline.
Qed.

Lemma unwrap_buffer_discipline_witness :
  (forall a, In a (held (cl_response (fst Stub.client_complete))) ->
             (a < w_next (snd Stub.client_complete))%nat) /\
  let '(_, st', w') :=
    auth_sspi_client_unwrap Stub.env (Some "YIIAYIIA"%string)
      (fst Stub.client_complete) (snd Stub.client_complete) in
  disciplined (held (cl_response (fst Stub.client_complete)))
    (held (cl_response st'))
    (events_since (snd Stub.client_complete) w').
Proof.
  assert (H : forall a,
             In a (held (cl_response (fst Stub.client_complete))) ->
             (a < w_next (snd Stub.client_complete))%nat).
  { vm_compute. intros a [<-|[]]. repeat constructor. }
  split; [exact H|].
  apply (@unwrap_buffer_discipline Stub.env (Some "YIIAYIIA"%string)
           (fst Stub.client_complete) (snd Stub.client_complete) H).
Defined.

(** X18. Wrap changes nothing in the context but the pending token,
    and unwrap nothing but the pending token and the protection level:
    credential, security context, flags, service name, principal and
    completion flag are left as they were. *)
Theorem wrap_unwrap_frame E st w data_arg user ulen protect ch :
  (let '(_, st', _) :=
     auth_sspi_client_wrap E data_arg user ulen protect st w in
   exists response, st' = set_cl_response response st) /\
  (let '(_, st', _) := auth_sspi_client_unwrap E ch st w in
   exists response qop,
     st' = set_cl_qop qop (set_cl_response response st)).
Proof.
  destruct st as [cred ctx spn response username flags haveCred haveCtx
                    qop conf complete].
  destruct w as [next trace].
  split.
  - unfold auth_sspi_client_wrap, base64_decode, base64_encode.
    exec; eexists; reflexivity.
  - unfold auth_sspi_client_unwrap, base64_decode, base64_encode.
    exec; do 2 eexists; reflexivity.
Qed.

(** X19. Outcomes of wrap. It never returns [Continue]. Every
    protect call it makes is on the security context of the context,
    at protection level 0 when [protect] is non-zero and at the
    no-encryption level otherwise. If it returns [Complete], that call
    succeeded and the pending token is the base64 text of the three
    buffers as the provider left them: security trailer, message,
    padding. In every other case there is no pending token; and when
    the protect call reports a failure, the result is the error made
    from its status and the text [EncryptMessage]. *)
Theorem wrap_outcome E data_arg user ulen protect st w :
  let fQOP := if truthy protect then 0 else SECQOP_WRAP_NO_ENCRYPT in
  let '(r, st', w') :=
    auth_sspi_client_wrap E data_arg user ulen protect st w in
  (tag r = Some Complete ->
   truthy (cl_haveCtx st) = true /\
   exists trailer plaintext padding,
     In (EvEncryptMessage (cl_ctx st) fQOP trailer plaintext padding)
        (events_since w w') /\
     let '(status, (token, cipher, pad)) :=
       EncryptMessage E (cl_ctx st) fQOP trailer plaintext padding in
     status = SEC_E_OK /\
     exists text,
       cl_response st' = Some text /\
       CryptStringToBinaryA (Some (data text))
       = Some (token ++ cipher ++ pad)) /\
  (tag r <> Some Complete -> cl_response st' = None) /\
  tag r <> Some Continue /\
  (forall ctx q trailer plaintext padding,
     In (EvEncryptMessage ctx q trailer plaintext padding)
        (events_since w w') ->
     ctx = cl_ctx st /\ q = fQOP /\
     (fst (EncryptMessage E ctx q trailer plaintext padding) <> SEC_E_OK ->
      r = Returned (sspi_error_result E
                      (fst (EncryptMessage E ctx q trailer plaintext padding))
                      "EncryptMessage"))).
Proof.
  destruct st as [cred ctx spn response username flags haveCred haveCtx
                    qop conf complete].
  destruct w as [next trace].
  unfold auth_sspi_client_wrap, base64_decode, base64_encode.
  exec.
  all: rewrite <- ?app_assoc; cbn [app];
    rewrite ?events_since_app, ?events_since_same.
  all: split; [intros T; try discriminate T|].
  all: try (split; [first [reflexivity|assumption]|];
            do 3 eexists; split; [cbn; eauto 12|];
            cbn [data] in *; recall; cbv beta iota; status_facts;
            split; [assumption|];
            eexists; split; [reflexivity|]; apply codec_round_trip).
  all: split; [intros T2; first [reflexivity|exfalso; apply T2; reflexivity]|].
  all: split; [discriminate|].
  all: intros c0 q t pl pad HIn; in_events HIn.
  all: inversion HIn; subst; clear HIn.
  all: split; [reflexivity|]; split; [reflexivity|].
  all: cbn [data] in *; recall; cbn [fst]; status_facts; intros N;
    try contradiction; reflexivity.
Qed.

(** The plaintext region of the working buffer when data is rewrapped. *)
Lemma rewrap_region bytes t blk :
  0 <= t -> 0 <= blk ->
  slice
    (store
       (repeat None
          (Z.to_nat (t + Z.of_nat (List.length bytes) + blk)))
       (Z.to_nat t)
       (firstn (Z.to_nat (Z.of_nat (List.length bytes))) bytes))
    t (Z.of_nat (List.length bytes))
  = map Some bytes.
Proof.
  intros Ht Hb. unfold slice.
  rewrite Nat2Z.id, firstn_all.
  set (n := List.length bytes).
  replace (Z.to_nat (t + Z.of_nat n + blk))
    with (Z.to_nat t + (n + Z.to_nat blk))%nat by lia.
  set (k := Z.to_nat t). set (p := Z.to_nat blk).
  rewrite repeat_app.
  rewrite (@store_after (repeat None k)) by (now rewrite repeat_length).
  rewrite store_at_0 by (rewrite repeat_length; fold n; lia).
  rewrite skipn_repeat. fold n.
  replace (n + p - n)%nat with p by lia.
  rewrite skipn_app, repeat_length, Nat.sub_diag.
  rewrite skipn_all2 by (rewrite repeat_length; lia).
  cbn [app skipn].
  rewrite firstn_app, length_map. fold n.
  rewrite Nat.sub_diag, firstn_all2 by (rewrite length_map; fold n; lia).
  cbn [firstn]. now rewrite app_nil_r.
Qed.

(** X20. Without a user name, on an established context, once the
    sizes are known and the buffers are obtained, the plaintext handed
    to the provider's protect call is exactly the decoded data
    argument, and no provider call but the sizes query comes before it.
    Sizes are those of a 32-bit [ULONG]: the sum of trailer, data and
    block sizes fits. *)
Theorem wrap_rewraps_decoded_data
    E st data_arg user ulen protect w trailer block bytes :
  truthy (cl_haveCtx st) = true ->
  c_nonempty user = false ->
  CryptStringToBinaryA data_arg = Some bytes ->
  QueryContextAttributes_sizes E (cl_ctx st) = (SEC_E_OK, (trailer, block)) ->
  0 <= trailer -> 0 <= block ->
  trailer + Z.of_nat (List.length bytes) + block < ULONG_modulus ->
  malloc_ok E (w_next w) = true ->
  malloc_ok E (S (w_next w)) = true ->
  let '(_, _, w') :=
    auth_sspi_client_wrap E data_arg user ulen protect st w in
  exists token padding pre post,
    events_since w w'
    = pre ++ EvEncryptMessage (cl_ctx st)
               (if truthy protect then 0 else SECQOP_WRAP_NO_ENCRYPT)
               token (map Some bytes) padding :: post
    /\ forallb (fun e => negb (is_provider_call e)
                         || match e with
                            | EvQueryContextAttributes _ _ => true
                            | _ => false
                            end) pre = true.
Proof.
  intros Hc Hu Hd Hq Ht Hb Hsum Hm Hm2.
  assert (U1 : ulong (Z.of_nat (List.length bytes))
               = Z.of_nat (List.length bytes))
    by (unfold ulong; apply Z.mod_small; lia).
  assert (U2 : ulong (trailer + Z.of_nat (List.length bytes) + block)
               = trailer + Z.of_nat (List.length bytes) + block)
    by (unfold ulong; apply Z.mod_small; lia).
  assert (U3 : size_t (trailer + Z.of_nat (List.length bytes) + block
                       - trailer)
               = Z.of_nat (List.length bytes) + block).
  { unfold size_t. rewrite Z.mod_small; [lia|].
    unfold ULONG_modulus, SIZE_T_modulus in *. lia. }
  assert (R := rewrap_region bytes Ht Hb).
  assert (R0 : Z.of_nat (List.length bytes) = 0 ->
               slice (repeat None
                        (Z.to_nat (trailer + Z.of_nat (List.length bytes)
                                   + block)))
                 trailer (Z.of_nat (List.length bytes)) = map Some bytes).
  { intros H0. unfold slice. rewrite H0. cbn [Z.to_nat firstn].
    destruct bytes; [reflexivity|]. cbn in H0. lia. }
  destruct st as [cred ctx spn response username flags haveCred haveCtx
                    qop conf complete].
  destruct w as [next trace].
  cbn [cl_haveCtx cl_ctx w_next] in *.
  unfold auth_sspi_client_wrap, base64_decode, base64_encode.
  exec.
  all: rewrite <- ?app_assoc; cbn [app];
       rewrite ?events_since_app.
  all: cbn [data] in *; rewrite ?U1, ?U2, ?U3 in *; status_facts.
  all: try match goal with
           | H : (_ <? _) = true |- _ => apply Z.ltb_lt in H; lia
           end.
  all: try rewrite R0 by assumption; try rewrite R.
  all: do 2 eexists.
  all: match goal with
       | |- exists pre post,
              ?a :: ?b :: ?c :: ?d :: ?e :: ?f
                :: EvEncryptMessage _ _ _ _ _ :: _ = _ /\ _ =>
           exists [a; b; c; d; e; f]
       | |- exists pre post,
              ?a :: ?b :: ?c :: ?d :: ?e :: ?f :: ?g
                :: EvEncryptMessage _ _ _ _ _ :: _ = _ /\ _ =>
           exists [a; b; c; d; e; f; g]
       end; eexists; split; [cbn [app]; reflexivity|reflexivity].
Qed.

Lemma wrap_rewraps_decoded_data_witness :
  CryptStringToBinaryA (Some "YIIA"%string) = Some [x60; x82; x00] /\
  let '(_, _, w') :=
    auth_sspi_client_wrap Stub.env (Some "YIIA"%string) ""%string 0 0
      (fst Stub.client_established) (snd Stub.client_established) in
  exists token padding pre post,
    events_since (snd Stub.client_established) w'
    = pre ++ EvEncryptMessage (cl_ctx (fst Stub.client_established))
               (if truthy 0 then 0 else SECQOP_WRAP_NO_ENCRYPT)
               token (map Some [x60; x82; x00]) padding :: post
    /\ forallb (fun e => negb (is_provider_call e)
                         || match e with
                            | EvQueryContextAttributes _ _ => true
                            | _ => false
                            end) pre = true.
Proof.
  split; [reflexivity|].
  apply (@wrap_rewraps_decoded_data Stub.env
           (fst Stub.client_established) (Some "YIIA"%string) ""%string 0 0
           (snd Stub.client_established) 2 3 [x60; x82; x00]);
    try reflexivity; discriminate.
Defined.

(** X21. Memory discipline of wrap, for a context whose pending
    token is a block allocated earlier. Every block wrap allocates is
    either the token the context holds afterwards, and then is not
    freed, or is freed exactly once, on every exit; and the only other
    block it frees is the token that was pending at entry, once. *)
Theorem wrap_buffer_discipline E data_arg user ulen protect st w :
  (forall a, In a (held (cl_response st)) -> (a < w_next w)%nat) ->
  let '(_, st', w') :=
    auth_sspi_client_wrap E data_arg user ulen protect st w in
  disciplined (held (cl_response st)) (held (cl_response st'))
    (events_since w w').
Proof.
  intros Hlt.
  destruct st as [cred ctx spn response username flags haveCred haveCtx
                    qop conf complete].
  destruct w as [next trace].
  cbn [cl_response w_next] in *.
  assert (Hr : forall b, response = Some b -> (addr b < next)%nat).
  { intros b ->. apply Hlt. left. reflexivity. }
  clear Hlt.
  unfold auth_sspi_client_wrap, base64_decode, base64_encode.
  exec.
  all: rewrite <- ?app_assoc; cbn [app];
    rewrite ?events_since_app, ?events_since_same.
  all: try destruct response as [rb|].
  all: known_addresses.
  all: forget_equations.
  all: discipline.
Qed.

Lemma wrap_buffer_discipline_witness :
  (forall a, In a (held (cl_response (fst Stub.client_pending))) ->
             (a < w_next (snd Stub.client_pending))%nat) /\
  let '(_, st', w') :=
    auth_sspi_client_wrap Stub.env (Some "YIIA"%string) ""%string 0 0
      (fst Stub.client_pending) (snd Stub.client_pending) in
  disciplined (held (cl_response (fst Stub.client_pending)))
    (held (cl_response st'))
    (events_since (snd Stub.client_pending) w').
Proof.
  assert (H : forall a,
             In a (held (cl_response (fst Stub.client_pending))) ->
             (a < w_next (snd Stub.client_pending))%nat).
  { vm_compute. intros a [<-|[]]. repeat constructor. }
  split; [exact H|].
  apply (@wrap_buffer_discipline Stub.env (Some "YIIA"%string) ""%string 0 0
           (fst Stub.client_pending) (snd Stub.client_pending) H).
Defined.

(** ** The helpers *)

(** X24. The three helpers leave the context alone and keep no
    block of their own: the one block each allocates is returned to the
    caller or freed before a null result. The encoder, over the
    platform call as modelled, returns null exactly when its allocation
    fails; the decoder returns null exactly when the text does not
    decode or the allocation fails, and allocates nothing when the text
    does not decode; the result of the converter, when not null, is the
    text of its second conversion call, both calls having reported a
    non-zero length. *)
Theorem helpers_keep_no_block E (St : Type) (s : St) w :
  (forall value,
      let '(p, s', w') := base64_encode E value s w in
      s' = s /\ disciplined [] (held p) (events_since w w') /\
      (p = None <-> malloc_ok E (w_next w) = false)) /\
  (forall value,
      let '(p, s', w') := base64_decode E value s w in
      s' = s /\ disciplined [] (held p) (events_since w w') /\
      (p = None <->
       CryptStringToBinaryA value = None \/ malloc_ok E (w_next w) = false)
      /\ (CryptStringToBinaryA value = None -> w_next w' = w_next w)) /\
  (forall value,
      let '(p, s', w') := wide_to_utf8 E value s w in
      s' = s /\ disciplined [] (held p) (events_since w w') /\
      (p <> None ->
       let len := fst (WideCharToMultiByte E value 0) in
       truthy len = true /\
       truthy (fst (WideCharToMultiByte E value len)) = true /\
       option_map (@data _) p
       = Some (snd (WideCharToMultiByte E value len)))).
Proof.
  destruct w as [next trace].
  split; [|split]; intros value.
  - unfold base64_encode. exec.
    all: rewrite <- ?app_assoc; cbn [app];
      rewrite ?events_since_app, ?events_since_same.
    all: split; [reflexivity|]; split; [discipline|].
    all: cbn [w_next]; recall; split; intros H; congruence.
  - unfold base64_decode. exec.
    all: rewrite <- ?app_assoc; cbn [app];
      rewrite ?events_since_app, ?events_since_same.
    all: split; [reflexivity|]; split; [discipline|].
    all: cbn [w_next]; recall.
    all: split; [split; intros H; try congruence; try tauto;
                 destruct H; congruence|].
    all: intros H; try discriminate H; reflexivity.
  - unfold wide_to_utf8. exec.
    all: rewrite <- ?app_assoc; cbn [app];
      rewrite ?events_since_app, ?events_since_same.
    all: split; [reflexivity|]; split; [discipline|].
    all: intros H; try (exfalso; apply H; reflexivity).
    all: cbv zeta; recall; cbn [fst snd option_map data].
    all: repeat split; first [reflexivity|assumption].
Qed.
